(** * The event-ingestion route [src/app/api/send/route.ts]

    A shallow embedding of the [POST] handler of the send route: the
    bot filter, the continuation-cache check, website and session
    resolution, the visit window, URL/referrer normalisation and the
    persistence of the event or identity record.

    JavaScript strings are sequences of UTF-16 code units; a code unit
    is a number ([N]).  Everything the handler imports (stores,
    detection, crypto, token codec, platform built-ins) is a field of a
    [World] record; the calls the handler makes to them are recorded,
    in order, in a trace. *)

From Stdlib Require Import List NArith ZArith Bool String Ascii Lia Sorted.
Import ListNotations.
Local Open Scope Z_scope.

(* ================================================================== *)
(** * JavaScript strings *)
(* ================================================================== *)

Module JS.

(** A UTF-16 code unit. *)
Definition char := N.

(** A string value: its code units. *)
Definition str := list char.

(** The code units of an ASCII literal. *)
Definition lit (s : string) : str :=
  List.map N_of_ascii (list_ascii_of_string s).

Definition char_eqb (a b : char) : bool := N.eqb a b.

(** The code unit of an ASCII character. *)
Definition chr (a : ascii) : char := N_of_ascii a.

Fixpoint eqb (a b : str) : bool :=
  match a, b with
  | [], [] => true
  | x :: a', y :: b' => char_eqb x y && eqb a' b'
  | _, _ => false
  end.

(** [ToString] of a value that is a string or [undefined]. *)
Definition to_string (v : option str) : str :=
  match v with
  | Some s => s
  | None => lit "undefined"
  end.

(** [ToBoolean] of a string-or-undefined value: the empty string and
    [undefined] are falsy. *)
Definition truthy (v : option str) : bool :=
  match v with
  | Some (_ :: _) => true
  | _ => false
  end.

(** [a || b] on string-or-undefined operands with a string default. *)
Definition or_else (v : option str) (d : str) : str :=
  match v with
  | Some (c :: s) => c :: s
  | _ => d
  end.

(** [a || b] on a number-or-undefined operand: [0] is falsy. *)
Definition or_elseZ (v : option Z) (d : Z) : Z :=
  match v with
  | Some n => if Z.eqb n 0 then d else n
  | None => d
  end.

(** [s.startsWith(p)]. *)
Fixpoint starts_with (p s : str) : bool :=
  match p, s with
  | [], _ => true
  | x :: p', y :: s' => char_eqb x y && starts_with p' s'
  | _ :: _, [] => false
  end.

(** [s.includes(p)]. *)
Fixpoint includes (p s : str) : bool :=
  starts_with p s ||
  match s with
  | [] => false
  | _ :: s' => includes p s'
  end.

(** [s.split(c)] for a one-character separator [c]: the pieces between
    the occurrences of [c]; never the empty array. *)
Fixpoint split (c : char) (s : str) : list str :=
  match s with
  | [] => [[]]
  | x :: s' =>
      if char_eqb x c then [] :: split c s'
      else match split c s' with
           | piece :: pieces => (x :: piece) :: pieces
           | [] => [[x]]
           end
  end.

(** [s.substring(1)]. *)
Definition substring1 (s : str) : str := List.tl s.

(** ** The character classes of the route's regular expressions *)

Definition in_range (lo hi c : N) : bool := N.leb lo c && N.leb c hi.

(** [\w]: [A-Za-z0-9_]. *)
Definition is_word (c : char) : bool :=
  (in_range 65 90 c || in_range 97 122 c || in_range 48 57 c || N.eqb c 95)%N.

(** The line terminators, which [.] does not match: LF, CR, U+2028,
    U+2029. *)
Definition is_line_terminator (c : char) : bool :=
  (N.eqb c 10 || N.eqb c 13 || N.eqb c 8232 || N.eqb c 8233)%N.

(** [.] *)
Definition is_dot (c : char) : bool := negb (is_line_terminator c).

Definition is_alpha (c : char) : bool :=
  (in_range 65 90 c || in_range 97 122 c)%N.

Definition is_digit (c : char) : bool := (in_range 48 57 c)%N.

(** ** A regular-expression matcher for [RegExp.prototype.test] *)

Inductive regex : Type :=
| Empty                          (* matches nothing *)
| Eps                            (* matches the empty string *)
| Class (p : char -> bool)       (* one character of a class *)
| Seq (r1 r2 : regex)
| Alt (r1 r2 : regex)
| Star (r : regex).

(** [r+] *)
Definition Plus (r : regex) : regex := Seq r (Star r).

Definition Chr (c : char) : regex := Class (char_eqb c).

(** The literal [s]. *)
Fixpoint Lit (s : str) : regex :=
  match s with
  | [] => Eps
  | c :: s' => Seq (Chr c) (Lit s')
  end.

Fixpoint nullable (r : regex) : bool :=
  match r with
  | Empty => false
  | Eps => true
  | Class _ => false
  | Seq r1 r2 => nullable r1 && nullable r2
  | Alt r1 r2 => nullable r1 || nullable r2
  | Star _ => true
  end.

(** Brzozowski derivative: what remains of [r] after reading [c]. *)
Fixpoint deriv (c : char) (r : regex) : regex :=
  match r with
  | Empty => Empty
  | Eps => Empty
  | Class p => if p c then Eps else Empty
  | Seq r1 r2 =>
      if nullable r1 then Alt (Seq (deriv c r1) r2) (deriv c r2)
      else Seq (deriv c r1) r2
  | Alt r1 r2 => Alt (deriv c r1) (deriv c r2)
  | Star r1 => Seq (deriv c r1) (Star r1)
  end.

(** [/^r/.test(s)]: some prefix of [s] matches [r]. *)
Fixpoint test_anchored (r : regex) (s : str) : bool :=
  nullable r ||
  match s with
  | [] => false
  | c :: s' => test_anchored (deriv c r) s'
  end.

(** ** [String.prototype.replace] for the route's two patterns *)

(** [s.replace(/p/, r)] for a pattern [p] that is a literal: the
    leftmost occurrence of [p] is replaced by [r]. *)
Fixpoint replace_literal (p r s : str) : str :=
  if starts_with p s then r ++ List.skipn (List.length p) s
  else match s with
       | [] => []
       | c :: s' => c :: replace_literal p r s'
       end.

(** A match of [(.+)\/$] that starts at the first character of [s]: the
    greedy group takes characters other than line terminators, then the
    slash has to be the last character of the input.  The result is the
    text of group 1. *)
Fixpoint match_group_slash_end (s : str) : option str :=
  match s with
  | [] => None
  | c :: s' =>
      if is_dot c then
        match s' with
        | [] => None
        | [d] => if char_eqb d (chr "/") then Some [c] else None
        | _ :: _ :: _ =>
            match match_group_slash_end s' with
            | Some g => Some (c :: g)
            | None => None
            end
        end
      else None
  end.

(** [s.replace(/(.+)\/$/, '$1')]: the leftmost position where the
    pattern matches is found; the text before it is kept and the match
    is replaced by its group 1. *)
Fixpoint replace_group_slash_end (s : str) : str :=
  match match_group_slash_end s with
  | Some g => g
  | None =>
      match s with
      | [] => []
      | c :: s' => c :: replace_group_slash_end s'
      end
  end.

(** ** Reference notions for the split at a separator *)

(** The text before the first [c] (all of [s] when there is none). *)
Fixpoint before_first (c : char) (s : str) : str :=
  match s with
  | [] => []
  | x :: s' => if char_eqb x c then [] else x :: before_first c s'
  end.

(** The text after the first [c], when there is one. *)
Fixpoint after_first (c : char) (s : str) : option str :=
  match s with
  | [] => None
  | x :: s' => if char_eqb x c then Some s' else after_first c s'
  end.

(** ** The language of a regular expression *)

(** [matches r s]: the whole of [s] is a match of [r]. *)
Inductive matches : regex -> str -> Prop :=
| MEps : matches Eps []
| MClass p c : p c = true -> matches (Class p) [c]
| MSeq r1 r2 s1 s2 :
    matches r1 s1 -> matches r2 s2 -> matches (Seq r1 r2) (s1 ++ s2)
| MAltL r1 r2 s : matches r1 s -> matches (Alt r1 r2) s
| MAltR r1 r2 s : matches r2 s -> matches (Alt r1 r2) s
| MStarNil r : matches (Star r) []
| MStarApp r s1 s2 :
    matches r s1 -> matches (Star r) s2 -> matches (Star r) (s1 ++ s2).

End JS.

Definition js : string -> JS.str := JS.lit.

(* ================================================================== *)
(** * Data *)
(* ================================================================== *)

(** A JSON value. *)
#[local] Unset Elimination Schemes.
Inductive Json : Type :=
| JNull
| JBool (b : bool)
| JNum (n : Z)
| JStr (s : JS.str)
| JArr (items : list Json)
| JObj (fields : list (JS.str * Json)).
#[local] Set Elimination Schemes.

(** An object: its own enumerable properties. *)
Definition Object := list (JS.str * Json).

(** A thrown [Error]: the handler reads only its [message]. *)
Module Error.
Record t := { message : JS.str }.
End Error.

(** The result of an awaited call: the promise resolves or rejects. *)
Inductive Result (A : Type) : Type :=
| Resolves (a : A)
| Rejects (e : Error.t).
Arguments Resolves {A} a.
Arguments Rejects {A} e.

(** The request as the handler reads it: two headers and the raw
    content that [parseRequest] validates. *)
Module Request.
Record t := {
  user_agent : option JS.str;      (* request.headers.get('user-agent') *)
  x_umami_cache : option JS.str;   (* request.headers.get('x-umami-cache') *)
  content : JS.str
}.
End Request.

(** The [payload] object of the schema (lines 22-35). *)
Module Payload.
Record t := {
  website : JS.str;
  data : option Object;
  hostname : option JS.str;
  language : option JS.str;
  referrer : option JS.str;
  screen : option JS.str;
  title : option JS.str;
  url : option JS.str;
  name : option JS.str;
  tag : option JS.str;
  ip : option JS.str;
  userAgent : option JS.str
}.
End Payload.

Module Body.
Record t := { type : JS.str; payload : Payload.t }.
End Body.

(** The decoded claims of the continuation token (line 60). *)
Module Cache.
Record t := {
  websiteId : JS.str;
  sessionId : JS.str;
  visitId : JS.str;
  iat : Z
}.
End Cache.

(** What [getClientInfo] resolves to (line 81). *)
Module ClientInfo.
Record t := {
  ip : option JS.str;
  userAgent : option JS.str;
  device : option JS.str;
  browser : option JS.str;
  os : option JS.str;
  country : option JS.str;
  subdivision1 : option JS.str;
  subdivision2 : option JS.str;
  city : option JS.str
}.
End ClientInfo.

(** The argument of [createSession] (lines 98-111). *)
Module Session.
Record t := {
  id : JS.str;
  websiteId : JS.str;
  hostname : option JS.str;
  browser : option JS.str;
  os : option JS.str;
  device : option JS.str;
  screen : option JS.str;
  language : option JS.str;
  country : option JS.str;
  subdivision1 : option JS.str;
  subdivision2 : option JS.str;
  city : option JS.str
}.
End Session.

(** The argument of [saveEvent] (lines 152-175). *)
Module Event.
Record t := {
  websiteId : JS.str;
  sessionId : JS.str;
  visitId : JS.str;
  urlPath : JS.str;
  urlQuery : option JS.str;
  referrerPath : option JS.str;
  referrerQuery : option JS.str;
  referrerDomain : JS.str;
  pageTitle : option JS.str;
  eventName : option JS.str;
  eventData : option Object;
  hostname : option JS.str;
  browser : option JS.str;
  os : option JS.str;
  device : option JS.str;
  screen : option JS.str;
  language : option JS.str;
  country : option JS.str;
  subdivision1 : option JS.str;
  subdivision2 : option JS.str;
  city : option JS.str;
  tag : option JS.str
}.
End Event.

(** The argument of [saveSessionData] (lines 183-187). *)
Module SessionData.
Record t := {
  websiteId : JS.str;
  sessionId : JS.str;
  sessionData : Object
}.
End SessionData.

(** The three properties the handler reads of a parsed [URL]. *)
Module URL.
Record t := {
  pathname : JS.str;
  search : JS.str;
  hostname : JS.str
}.
End URL.

(** A website row: the handler only tests that there is one. *)
Module Website.
Record t := { id : JS.str }.
End Website.

(** The responses of [lib/response], and the response [error()] that
    [parseRequest] hands back for a body it rejects. *)
Inductive Response : Type :=
| json (body : Json)
| badRequest (msg : JS.str)
| forbidden
| serverError (diagnostic : Json)
| errorResponse (status : Z) (body : Json).

(** What [parseRequest] resolves to: [{ body }] or [{ error }]. *)
Inductive Parsed : Type :=
| ParsedBody (body : Body.t)
| ParsedError (error : Response).

(** [COLLECTION_TYPE] of [lib/constants]: the two fields the handler
    compares [type] with. *)
Module CollectionType.
Record t := { event : JS.str; identify : JS.str }.
End CollectionType.

(* ================================================================== *)
(** * The world the handler runs in *)
(* ================================================================== *)

(** Configuration, the imported functions and the platform built-ins.
    None of them is defined in the route; each is taken as given.  A
    function the handler awaits resolves or rejects; the others return
    a value, except the URL constructor, which can throw.  What is
    thrown is an [Error] with a string [message]. *)
Record World : Type := {
  (* process.env *)
  DISABLE_BOT_CHECK : option JS.str;
  REMOVE_TRAILING_SLASH : option JS.str;
  (* lib/clickhouse, lib/constants *)
  clickhouse_enabled : bool;
  COLLECTION_TYPE : CollectionType.t;
  (* isbot *)
  isbot : option JS.str -> bool;
  (* lib/request *)
  parseRequest : Request.t -> Result Parsed;
  (* lib/crypto *)
  secret : JS.str;
  visitSalt : JS.str;
  uuid : list (option JS.str) -> JS.str;
  (* next-basics *)
  parseToken : JS.str -> JS.str -> Result (option Cache.t);
  createToken : Cache.t -> JS.str -> JS.str;
  safeDecodeURI : option JS.str -> option JS.str;
  (* lib/load *)
  fetchWebsite : JS.str -> Result (option Website.t);
  fetchSession : JS.str -> JS.str -> Result (option Session.t);
  (* lib/detect *)
  getClientInfo : Request.t -> Payload.t -> Result ClientInfo.t;
  hasBlockedIp : option JS.str -> bool;
  (* queries *)
  createSession : Session.t -> Result unit;
  saveEvent : Event.t -> Result unit;
  saveSessionData : SessionData.t -> Result unit;
  (* serialize-error *)
  serializeError : Error.t -> Json;
  (* platform: new Date().getTime(), String.prototype.toLowerCase,
     new URL(s) (None: the constructor throws a TypeError) *)
  getTime : Z;
  toLowerCase : JS.str -> JS.str;
  new_URL : JS.str -> option URL.t
}.

(** The calls the handler makes to its collaborators. *)
Inductive Call : Type :=
| CallParseRequest (request : Request.t)
| CallParseToken (token key : JS.str)
| CallFetchWebsite (websiteId : JS.str)
| CallGetClientInfo (request : Request.t) (payload : Payload.t)
| CallHasBlockedIp (ip : option JS.str)
| CallFetchSession (websiteId sessionId : JS.str)
| CallCreateSession (session : Session.t)
| CallGetTime
| CallSaveEvent (event : Event.t)
| CallSaveSessionData (data : SessionData.t)
| CallCreateToken (claims : Cache.t) (key : JS.str).

(** A store write: the calls that persist something. *)
Definition is_write (c : Call) : bool :=
  match c with
  | CallCreateSession _ | CallSaveEvent _ | CallSaveSessionData _ => true
  | _ => false
  end.

(* ================================================================== *)
(** * Control flow: early return, exceptions and the trace *)
(* ================================================================== *)

(** How a piece of the handler ends: it falls through with a value, it
    executes [return response], or an exception escapes it. *)
Inductive Outcome (A : Type) : Type :=
| Next (a : A)
| Return (r : Response)
| Throw (e : Error.t).
Arguments Next {A} a.
Arguments Return {A} r.
Arguments Throw {A} e.

(** A computation: its outcome and the calls it made, oldest first. *)
Definition M (A : Type) : Type := (Outcome A * list Call)%type.

Definition ret {A} (a : A) : M A := (Next a, []).

Definition respond {A} (r : Response) : M A := (Return r, []).

Definition throw {A} (e : Error.t) : M A := (Throw e, []).

(** Sequencing: the rest runs only when the first part falls through,
    and its calls come after the first part's. *)
Definition bind {A B} (m : M A) (k : A -> M B) : M B :=
  match fst m with
  | Next a => (fst (k a), snd m ++ snd (k a))
  | Return r => (Return r, snd m)
  | Throw e => (Throw e, snd m)
  end.

Notation "x <- m ;; k" := (bind m (fun x => k))
  (at level 61, m at next level, right associativity).
Notation "m ;; k" := (bind m (fun _ => k))
  (at level 61, right associativity).

(** [await f(args)]: the call is recorded; a rejection is thrown. *)
Definition await {A} (c : Call) (r : Result A) : M A :=
  match r with
  | Resolves a => (Next a, [c])
  | Rejects e => (Throw e, [c])
  end.

(** A synchronous call that is recorded. *)
Definition call {A} (c : Call) (a : A) : M A := (Next a, [c]).

(** [try { m } catch (e) { h e }]. *)
Definition try_catch {A} (m : M A) (h : Error.t -> M A) : M A :=
  match fst m with
  | Throw e => (fst (h e), snd m ++ snd (h e))
  | _ => m
  end.

(** How the handler as a whole ends. *)
Inductive Completion : Type :=
| Responded (r : Response)
| Threw (e : Error.t).

(** The handler's last statement is a [return]: falling through with a
    response and returning it are the same. *)
Definition complete (m : M Response) : Completion * list Call :=
  match fst m with
  | Next r => (Responded r, snd m)
  | Return r => (Responded r, snd m)
  | Throw e => (Threw e, snd m)
  end.

(* ================================================================== *)
(** * The handler *)
(* ================================================================== *)

Section Handler.

Variable w : World.

(** ** Visit info (lines 120-129) *)

(** [cache?.visitId], [cache?.iat], [cache?.websiteId],
    [cache?.sessionId]. *)
Definition cache_visitId (cache : option Cache.t) : option JS.str :=
  option_map Cache.visitId cache.
Definition cache_iat (cache : option Cache.t) : option Z :=
  option_map Cache.iat cache.
Definition cache_websiteId (cache : option Cache.t) : option JS.str :=
  option_map Cache.websiteId cache.
Definition cache_sessionId (cache : option Cache.t) : option JS.str :=
  option_map Cache.sessionId cache.

(** [uuid(sessionId, visitSalt())]. *)
Definition fresh_visitId (sessionId : JS.str) : JS.str :=
  uuid w [Some sessionId; Some (visitSalt w)].

(** The visit id and its issue time, from the cache and the clock. *)
Definition visit_info (cache : option Cache.t) (sessionId : JS.str)
    (now : Z) : JS.str * Z :=
  let visitId := JS.or_else (cache_visitId cache) (fresh_visitId sessionId) in
  let iat := JS.or_elseZ (cache_iat cache) now in
  (* Expire visit after 30 minutes *)
  if now - iat >? 1800 then (fresh_visitId sessionId, now)
  else (visitId, iat).

(** ** URL and referrer (lines 133-150) *)

(** [/^[\w-]+:\/\/\w+/] *)
Definition absolute_url_re : JS.regex :=
  JS.Seq
    (JS.Plus (JS.Class (fun c => JS.is_word c || JS.char_eqb c (JS.chr "-"))))
    (JS.Seq (JS.Lit (js "://")) (JS.Plus (JS.Class JS.is_word))).

(** [let [path, query] = safeDecodeURI(v)?.split('?') || []]. *)
Definition decode_and_split (v : option JS.str)
    : option JS.str * option JS.str :=
  match safeDecodeURI w v with
  | Some s =>
      let pieces := JS.split (JS.chr "?") s in
      (nth_error pieces 0, nth_error pieces 1)
  | None => (None, None)
  end.

(** The five values the event branch computes before [saveEvent]. *)
Record Normalized := {
  urlPath : JS.str;
  urlQuery : option JS.str;
  referrerPath : option JS.str;
  referrerQuery : option JS.str;
  referrerDomain : JS.str
}.

(** [if (process.env.REMOVE_TRAILING_SLASH) urlPath = urlPath.replace(...)]. *)
Definition remove_trailing_slash (urlPath : JS.str) : JS.str :=
  if JS.truthy (REMOVE_TRAILING_SLASH w)
  then JS.replace_group_slash_end urlPath
  else urlPath.

(** [refUrl.hostname.replace(/www\./, '')]. *)
Definition strip_www (hostname : JS.str) : JS.str :=
  JS.replace_literal (js "www.") [] hostname.

Definition invalid_url : Error.t := {| Error.message := js "Invalid URL" |}.

Definition normalize (url referrer : option JS.str) : M Normalized :=
  let '(urlPath0, urlQuery) := decode_and_split url in
  let '(referrerPath0, referrerQuery0) := decode_and_split referrer in
  (* if (!urlPath) urlPath = '/' *)
  let urlPath1 := JS.or_else urlPath0 (js "/") in
  ref <-
    (if JS.test_anchored absolute_url_re (JS.to_string referrerPath0) then
       match new_URL w (JS.to_string referrer) with
       | Some refUrl =>
           ret (Some (URL.pathname refUrl),
                Some (JS.substring1 (URL.search refUrl)),
                strip_www (URL.hostname refUrl))
       | None => throw invalid_url
       end
     else ret (referrerPath0, referrerQuery0, []));;
  let '(referrerPath, referrerQuery, referrerDomain) := ref in
  ret {| urlPath := remove_trailing_slash urlPath1;
         urlQuery := urlQuery;
         referrerPath := referrerPath;
         referrerQuery := referrerQuery;
         referrerDomain := referrerDomain |}.

(** ** The steps of [POST] *)

(** Bot check (lines 16-18). *)
Definition bot_check (request : Request.t) : M unit :=
  if negb (JS.truthy (DISABLE_BOT_CHECK w))
     && isbot w (Request.user_agent request)
  then respond (json (JObj [(js "beep", JStr (js "boop"))]))
  else ret tt.

(** Parsing and validation (lines 38-44).  The schema of lines 20-36
    and the options are what [parseRequest] is called with on every
    request, so they are part of the given function. *)
Definition parse_body (request : Request.t) : M Body.t :=
  parsed <- await (CallParseRequest request) (parseRequest w request);;
  match parsed with
  | ParsedError error => respond error
  | ParsedBody body => ret body
  end.

(** Cache check (lines 60-69). *)
Definition cache_check (request : Request.t) : M (option Cache.t) :=
  match Request.x_umami_cache request with
  | Some (c :: h) =>
      await (CallParseToken (c :: h) (secret w))
            (parseToken w (c :: h) (secret w))
  | _ => ret None
  end.

(** Find website (lines 72-78). *)
Definition find_website (cache : option Cache.t) (websiteId : JS.str)
    : M unit :=
  if negb (JS.truthy (cache_websiteId cache)) then
    website <- await (CallFetchWebsite websiteId) (fetchWebsite w websiteId);;
    match website with
    | None => respond (badRequest (js "Website not found."))
    | Some _ => ret tt
    end
  else ret tt.

(** IP block (lines 85-87). *)
Definition ip_block (ip : option JS.str) : M unit :=
  blocked <- call (CallHasBlockedIp ip) (hasBlockedIp w ip);;
  if blocked then respond forbidden else ret tt.

(** The session row that is created (lines 98-111). *)
Definition new_session (payload : Payload.t) (info : ClientInfo.t)
    (sessionId : JS.str) : Session.t :=
  {| Session.id := sessionId;
     Session.websiteId := Payload.website payload;
     Session.hostname := Payload.hostname payload;
     Session.browser := ClientInfo.browser info;
     Session.os := ClientInfo.os info;
     Session.device := ClientInfo.device info;
     Session.screen := Payload.screen payload;
     Session.language := Payload.language payload;
     Session.country := ClientInfo.country info;
     Session.subdivision1 := ClientInfo.subdivision1 info;
     Session.subdivision2 := ClientInfo.subdivision2 info;
     Session.city := ClientInfo.city info |}.

(** The [catch] block of session creation (lines 112-116). *)
Definition on_create_error (e : Error.t) : M unit :=
  if negb (JS.includes (js "unique constraint")
             (toLowerCase w (Error.message e)))
  then respond (serverError (serializeError w e))
  else ret tt.

(** Find session (lines 92-118). *)
Definition find_session (cache : option Cache.t) (payload : Payload.t)
    (info : ClientInfo.t) (sessionId : JS.str) : M unit :=
  if negb (JS.truthy (cache_sessionId cache)) then
    session <- await (CallFetchSession (Payload.website payload) sessionId)
                     (fetchSession w (Payload.website payload) sessionId);;
    (* Create a session if not found *)
    match session with
    | None =>
        if negb (clickhouse_enabled w) then
          let s := new_session payload info sessionId in
          try_catch (await (CallCreateSession s) (createSession w s))
                    on_create_error
        else ret tt
    | Some _ => ret tt
    end
  else ret tt.

(** The row handed to [saveEvent] (lines 152-175). *)
Definition new_event (payload : Payload.t) (info : ClientInfo.t)
    (sessionId visitId : JS.str) (n : Normalized) : Event.t :=
  {| Event.websiteId := Payload.website payload;
     Event.sessionId := sessionId;
     Event.visitId := visitId;
     Event.urlPath := urlPath n;
     Event.urlQuery := urlQuery n;
     Event.referrerPath := referrerPath n;
     Event.referrerQuery := referrerQuery n;
     Event.referrerDomain := referrerDomain n;
     Event.pageTitle := Payload.title payload;
     Event.eventName := Payload.name payload;
     Event.eventData := Payload.data payload;
     Event.hostname := Payload.hostname payload;
     Event.browser := ClientInfo.browser info;
     Event.os := ClientInfo.os info;
     Event.device := ClientInfo.device info;
     Event.screen := Payload.screen payload;
     Event.language := Payload.language payload;
     Event.country := ClientInfo.country info;
     Event.subdivision1 := ClientInfo.subdivision1 info;
     Event.subdivision2 := ClientInfo.subdivision2 info;
     Event.city := ClientInfo.city info;
     Event.tag := Payload.tag payload |}.

(** [if (type === COLLECTION_TYPE.event) { ... }] (lines 131-176). *)
Definition collect_event (body : Body.t) (info : ClientInfo.t)
    (sessionId visitId : JS.str) : M unit :=
  let payload := Body.payload body in
  if JS.eqb (Body.type body) (CollectionType.event (COLLECTION_TYPE w)) then
    n <- normalize (Payload.url payload) (Payload.referrer payload);;
    let e := new_event payload info sessionId visitId n in
    await (CallSaveEvent e) (saveEvent w e)
  else ret tt.

(** [if (type === COLLECTION_TYPE.identify) { ... }] (lines 178-188). *)
Definition collect_identify (body : Body.t) (sessionId : JS.str) : M unit :=
  let payload := Body.payload body in
  if JS.eqb (Body.type body) (CollectionType.identify (COLLECTION_TYPE w)) then
    match Payload.data payload with
    | None => respond (badRequest (js "Data required."))
    | Some data =>
        let d := {| SessionData.websiteId := Payload.website payload;
                    SessionData.sessionId := sessionId;
                    SessionData.sessionData := data |} in
        await (CallSaveSessionData d) (saveSessionData w d)
    end
  else ret tt.

(** [Math.floor(new Date().getTime() / 1000)]. *)
Definition read_now : M Z :=
  ms <- call CallGetTime (getTime w);;
  ret (ms / 1000).

(** [uuid(websiteId, hostname, ip, userAgent)] (line 89). *)
Definition derive_sessionId (payload : Payload.t) (info : ClientInfo.t)
    : JS.str :=
  uuid w [Some (Payload.website payload); Payload.hostname payload;
          ClientInfo.ip info; ClientInfo.userAgent info].

(** The claims of the token that is issued (line 190). *)
Definition new_claims (payload : Payload.t) (sessionId visitId : JS.str)
    (iat : Z) : Cache.t :=
  {| Cache.websiteId := Payload.website payload;
     Cache.sessionId := sessionId;
     Cache.visitId := visitId;
     Cache.iat := iat |}.

(** Persistence and the token (lines 131-192), for a resolved visit. *)
Definition collect (body : Body.t) (info : ClientInfo.t)
    (sessionId visitId : JS.str) (iat : Z) : M Response :=
  collect_event body info sessionId visitId;;
  collect_identify body sessionId;;
  let claims := new_claims (Body.payload body) sessionId visitId iat in
  token <- call (CallCreateToken claims (secret w))
                (createToken w claims (secret w));;
  ret (json (JObj [(js "cache", JStr token)])).

(** From the visit info to the response (lines 120-192), for a request
    whose session is resolved. *)
Definition visit_and_collect (cache : option Cache.t) (body : Body.t)
    (info : ClientInfo.t) (sessionId : JS.str) : M Response :=
  now <- read_now;;
  let '(visitId, iat) := visit_info cache sessionId now in
  collect body info sessionId visitId iat.

(** From the client info to the response (lines 80-192). *)
Definition resolve_and_collect (request : Request.t)
    (cache : option Cache.t) (body : Body.t) : M Response :=
  let payload := Body.payload body in
  info <- await (CallGetClientInfo request payload)
                (getClientInfo w request payload);;
  ip_block (ClientInfo.ip info);;
  let sessionId := derive_sessionId payload info in
  find_session cache payload info sessionId;;
  visit_and_collect cache body info sessionId.

Definition POST_body (request : Request.t) : M Response :=
  bot_check request;;
  body <- parse_body request;;
  cache <- cache_check request;;
  find_website cache (Payload.website (Body.payload body));;
  resolve_and_collect request cache body.

(** [export async function POST(request: Request)]. *)
Definition POST (request : Request.t) : Completion * list Call :=
  complete (POST_body request).

(** ** The handler by phases

    The same steps grouped by what they resolve: the prelude ends with
    the body and the decoded cache, the client check with the client
    info of a client that is not blocked. *)

Definition prelude (request : Request.t) : M (Body.t * option Cache.t) :=
  bot_check request;;
  body <- parse_body request;;
  cache <- cache_check request;;
  find_website cache (Payload.website (Body.payload body));;
  ret (body, cache).

Definition client_check (request : Request.t) (payload : Payload.t)
    : M ClientInfo.t :=
  info <- await (CallGetClientInfo request payload)
                (getClientInfo w request payload);;
  ip_block (ClientInfo.ip info);;
  ret info.

(** The part of the handler that runs for a client that is not
    blocked: session, visit, persistence and token. *)
Definition session_and_collect (cache : option Cache.t) (body : Body.t)
    (info : ClientInfo.t) : M Response :=
  let sessionId := derive_sessionId (Body.payload body) info in
  find_session cache (Body.payload body) info sessionId;;
  visit_and_collect cache body info sessionId.

Definition POST_phases (request : Request.t) : M Response :=
  bc <- prelude request;;
  info <- client_check request (Body.payload (fst bc));;
  session_and_collect (snd bc) (fst bc) info.

(** ** Notions for the statements about a run *)

(** [websiteId] and [sessionId] are the ids of this request: the
    website of its payload and the uuid of website, hostname, IP and
    user agent. *)
Definition request_ids (request : Request.t) (websiteId sessionId : JS.str)
    : Prop :=
  exists body info,
    parseRequest w request = Resolves (ParsedBody body) /\
    getClientInfo w request (Body.payload body) = Resolves info /\
    websiteId = Payload.website (Body.payload body) /\
    sessionId = uuid w [Some (Payload.website (Body.payload body));
                        Payload.hostname (Body.payload body);
                        ClientInfo.ip info; ClientInfo.userAgent info].

(** The calls of the prelude: parsing, token decoding, the website
    lookup. *)
Definition is_prelude_call (request : Request.t) (c : Call) : Prop :=
  c = CallParseRequest request \/
  (exists h, c = CallParseToken h (secret w)) \/
  (exists websiteId, c = CallFetchWebsite websiteId).

End Handler.

Definition is_bad_request (c : Completion) : bool :=
  match c with
  | Responded (badRequest _) => true
  | _ => false
  end.

Definition is_session_data_call (c : Call) : bool :=
  match c with
  | CallSaveSessionData _ => true
  | _ => false
  end.

Definition is_save_event_call (c : Call) : bool :=
  match c with
  | CallSaveEvent _ => true
  | _ => false
  end.

Definition is_create_session_call (c : Call) : bool :=
  match c with
  | CallCreateSession _ => true
  | _ => false
  end.

Definition is_create_token_call (c : Call) : bool :=
  match c with
  | CallCreateToken _ _ => true
  | _ => false
  end.

(** The place of a call in the handler's text: the line order of the
    eleven kinds of call. *)
Definition rank (c : Call) : nat :=
  match c with
  | CallParseRequest _ => 0
  | CallParseToken _ _ => 1
  | CallFetchWebsite _ => 2
  | CallGetClientInfo _ _ => 3
  | CallHasBlockedIp _ => 4
  | CallFetchSession _ _ => 5
  | CallCreateSession _ => 6
  | CallGetTime => 7
  | CallSaveEvent _ => 8
  | CallSaveSessionData _ => 9
  | CallCreateToken _ _ => 10
  end%nat.

(** The calls of [t] have ranks between [lo] and [hi] and come in
    strictly increasing rank. *)
Definition in_order (lo hi : nat) (t : list Call) : Prop :=
  StronglySorted Nat.lt (List.map rank t) /\
  forall c, In c t -> (lo <= rank c <= hi)%nat.

(** The bot filter applies: the check is not disabled and the user
    agent is classified as a bot (line 16). *)
Definition is_filtered_bot (w : World) (request : Request.t) : bool :=
  negb (JS.truthy (DISABLE_BOT_CHECK w))
  && isbot w (Request.user_agent request).

(** [[\w-]]: the class of the first group of the absolute-URL
    pattern. *)
Definition is_word_or_dash (c : JS.char) : bool :=
  JS.is_word c || JS.char_eqb c (JS.chr "-").

(* ================================================================== *)
(** * A world with a changed collaborator *)
(* ================================================================== *)

(** The world [w] with [createSession] replaced by [f]. *)
Definition with_createSession (w : World)
    (f : Session.t -> Result unit) : World :=
  {| DISABLE_BOT_CHECK := DISABLE_BOT_CHECK w;
     REMOVE_TRAILING_SLASH := REMOVE_TRAILING_SLASH w;
     clickhouse_enabled := clickhouse_enabled w;
     COLLECTION_TYPE := COLLECTION_TYPE w;
     isbot := isbot w;
     parseRequest := parseRequest w;
     secret := secret w;
     visitSalt := visitSalt w;
     uuid := uuid w;
     parseToken := parseToken w;
     createToken := createToken w;
     safeDecodeURI := safeDecodeURI w;
     fetchWebsite := fetchWebsite w;
     fetchSession := fetchSession w;
     getClientInfo := getClientInfo w;
     hasBlockedIp := hasBlockedIp w;
     createSession := f;
     saveEvent := saveEvent w;
     saveSessionData := saveSessionData w;
     serializeError := serializeError w;
     getTime := getTime w;
     toLowerCase := toLowerCase w;
     new_URL := new_URL w |}.

(** The world [w] with [parseToken] replaced by [f]. *)
Definition with_parseToken (w : World)
    (f : JS.str -> JS.str -> Result (option Cache.t)) : World :=
  {| DISABLE_BOT_CHECK := DISABLE_BOT_CHECK w;
     REMOVE_TRAILING_SLASH := REMOVE_TRAILING_SLASH w;
     clickhouse_enabled := clickhouse_enabled w;
     COLLECTION_TYPE := COLLECTION_TYPE w;
     isbot := isbot w;
     parseRequest := parseRequest w;
     secret := secret w;
     visitSalt := visitSalt w;
     uuid := uuid w;
     parseToken := f;
     createToken := createToken w;
     safeDecodeURI := safeDecodeURI w;
     fetchWebsite := fetchWebsite w;
     fetchSession := fetchSession w;
     getClientInfo := getClientInfo w;
     hasBlockedIp := hasBlockedIp w;
     createSession := createSession w;
     saveEvent := saveEvent w;
     saveSessionData := saveSessionData w;
     serializeError := serializeError w;
     getTime := getTime w;
     toLowerCase := toLowerCase w;
     new_URL := new_URL w |}.

(** The world [w] with [fetchWebsite] replaced by [f]. *)
Definition with_fetchWebsite (w : World)
    (f : JS.str -> Result (option Website.t)) : World :=
  {| DISABLE_BOT_CHECK := DISABLE_BOT_CHECK w;
     REMOVE_TRAILING_SLASH := REMOVE_TRAILING_SLASH w;
     clickhouse_enabled := clickhouse_enabled w;
     COLLECTION_TYPE := COLLECTION_TYPE w;
     isbot := isbot w;
     parseRequest := parseRequest w;
     secret := secret w;
     visitSalt := visitSalt w;
     uuid := uuid w;
     parseToken := parseToken w;
     createToken := createToken w;
     safeDecodeURI := safeDecodeURI w;
     fetchWebsite := f;
     fetchSession := fetchSession w;
     getClientInfo := getClientInfo w;
     hasBlockedIp := hasBlockedIp w;
     createSession := createSession w;
     saveEvent := saveEvent w;
     saveSessionData := saveSessionData w;
     serializeError := serializeError w;
     getTime := getTime w;
     toLowerCase := toLowerCase w;
     new_URL := new_URL w |}.

(** The world [w] with [saveEvent] replaced by [f]. *)
Definition with_saveEvent (w : World) (f : Event.t -> Result unit)
    : World :=
  {| DISABLE_BOT_CHECK := DISABLE_BOT_CHECK w;
     REMOVE_TRAILING_SLASH := REMOVE_TRAILING_SLASH w;
     clickhouse_enabled := clickhouse_enabled w;
     COLLECTION_TYPE := COLLECTION_TYPE w;
     isbot := isbot w;
     parseRequest := parseRequest w;
     secret := secret w;
     visitSalt := visitSalt w;
     uuid := uuid w;
     parseToken := parseToken w;
     createToken := createToken w;
     safeDecodeURI := safeDecodeURI w;
     fetchWebsite := fetchWebsite w;
     fetchSession := fetchSession w;
     getClientInfo := getClientInfo w;
     hasBlockedIp := hasBlockedIp w;
     createSession := createSession w;
     saveEvent := f;
     saveSessionData := saveSessionData w;
     serializeError := serializeError w;
     getTime := getTime w;
     toLowerCase := toLowerCase w;
     new_URL := new_URL w |}.

(** The world [w] with the URL constructor replaced by [f]. *)
Definition with_new_URL (w : World) (f : JS.str -> option URL.t) : World :=
  {| DISABLE_BOT_CHECK := DISABLE_BOT_CHECK w;
     REMOVE_TRAILING_SLASH := REMOVE_TRAILING_SLASH w;
     clickhouse_enabled := clickhouse_enabled w;
     COLLECTION_TYPE := COLLECTION_TYPE w;
     isbot := isbot w;
     parseRequest := parseRequest w;
     secret := secret w;
     visitSalt := visitSalt w;
     uuid := uuid w;
     parseToken := parseToken w;
     createToken := createToken w;
     safeDecodeURI := safeDecodeURI w;
     fetchWebsite := fetchWebsite w;
     fetchSession := fetchSession w;
     getClientInfo := getClientInfo w;
     hasBlockedIp := hasBlockedIp w;
     createSession := createSession w;
     saveEvent := saveEvent w;
     saveSessionData := saveSessionData w;
     serializeError := serializeError w;
     getTime := getTime w;
     toLowerCase := toLowerCase w;
     new_URL := f |}.

(** [s] starts with one or more word characters or hyphens, then
    [://], then a word character. *)
Definition has_absolute_shape (s : JS.str) : Prop :=
  exists scheme c rest,
    scheme <> [] /\
    forallb is_word_or_dash scheme = true /\
    JS.is_word c = true /\
    s = scheme ++ js "://" ++ c :: rest.

(** Two decoded caches that differ at most in the values of
    [websiteId] and [sessionId], which are truthy in both or falsy in
    both. *)
Definition same_but_ids (a b : Result (option Cache.t)) : Prop :=
  match a, b with
  | Resolves (Some c1), Resolves (Some c2) =>
      Cache.visitId c1 = Cache.visitId c2 /\
      Cache.iat c1 = Cache.iat c2 /\
      JS.truthy (Some (Cache.websiteId c1))
        = JS.truthy (Some (Cache.websiteId c2)) /\
      JS.truthy (Some (Cache.sessionId c1))
        = JS.truthy (Some (Cache.sessionId c2))
  | Resolves None, Resolves None => True
  | Rejects e1, Rejects e2 => e1 = e2
  | _, _ => False
  end.

(* ================================================================== *)
(** * A sample deployment *)
(* ================================================================== *)

(** Worlds for the examples.  The stores accept everything, the uuid
    and the token are stand-ins that keep their arguments readable, and
    three functions are the platform's on the inputs the examples use:
    [safeDecodeURI] returns a string without [%] as it is, [toLowerCase]
    lowers the letters of an ASCII string, and [parse_url] is
    [new URL(s)] on the inputs described there. *)
Module Sample.

(** ASCII letters to lower case; other code units unchanged. *)
Definition lower (c : JS.char) : JS.char :=
  if JS.in_range 65 90 c then (c + 32)%N else c.

(** The longest prefix of characters in [p], and the rest. *)
Fixpoint span (p : JS.char -> bool) (s : JS.str) : JS.str * JS.str :=
  match s with
  | c :: s' => if p c then let (a, b) := span p s' in (c :: a, b) else ([], s)
  | [] => ([], [])
  end.

Definition scheme_char (c : JS.char) : bool :=
  JS.is_alpha c || JS.is_digit c
  || JS.char_eqb c (JS.chr "+") || JS.char_eqb c (JS.chr "-")
  || JS.char_eqb c (JS.chr ".").

Definition host_char (c : JS.char) : bool :=
  JS.in_range 97 122 c || JS.is_digit c
  || JS.char_eqb c (JS.chr "-") || JS.char_eqb c (JS.chr ".").

(** A URL parser for the sample inputs.  It agrees with the platform's
    [new URL(s)] on the two kinds of input the examples use: a string
    whose first character is a digit, [-] or [_] (no scheme can start
    there and there is no base URL, so the constructor throws), and a
    string [http://host/path?query] or [https://host/path?query] with a
    lower-case host of letters, digits, [-] and [.], a path whose
    segments are made of letters, digits, [-] and [_] (so no [.] or
    [..] segment), a query of letters, digits, [=], [&], [-] and [_],
    and no port, credentials, fragment, escape, space or backslash.
    On any other input it is not the platform's constructor, and no
    example uses one. *)
Definition parse_url (s : JS.str) : option URL.t :=
  match s with
  | c :: _ =>
      if JS.is_alpha c then
        let (scheme, rest) := span scheme_char s in
        if (JS.eqb scheme (js "http") || JS.eqb scheme (js "https"))
           && JS.starts_with (js "://") rest
        then
          let (host, r1) := span host_char (List.skipn 3 rest) in
          let (path, r2) :=
            span (fun c => negb (JS.char_eqb c (JS.chr "?"))) r1 in
          match host with
          | [] => None
          | _ :: _ =>
              Some {| URL.pathname := JS.or_else (Some path) (js "/");
                      URL.search :=
                        match r2 with
                        | [_] => []
                        | _ => r2
                        end;
                      URL.hostname := host |}
          end
        else None
      else None
  | [] => None
  end.

(** The components joined with [|]; a missing one is the empty string. *)
Fixpoint join (parts : list (option JS.str)) : JS.str :=
  match parts with
  | [] => []
  | p :: rest => JS.or_else p [] ++ js "|" ++ join rest
  end.

(** What varies between the examples. *)
Record Scenario := {
  body : Body.t;
  token : option Cache.t;        (* what the cache header decodes to *)
  stored_session : bool;         (* fetchSession finds a row *)
  create_result : Result unit;   (* what createSession does *)
  blocked : bool;                (* hasBlockedIp *)
  time_ms : Z;                   (* new Date().getTime() *)
  no_bot_check : option JS.str;  (* process.env.DISABLE_BOT_CHECK *)
  no_trailing_slash : option JS.str; (* process.env.REMOVE_TRAILING_SLASH *)
  identify : JS.str              (* COLLECTION_TYPE.identify *)
}.

Definition client_info (request : Request.t) (payload : Payload.t)
    : ClientInfo.t :=
  {| ClientInfo.ip := Some (JS.or_else (Payload.ip payload) (js "203.0.113.7"));
     ClientInfo.userAgent :=
       Some (JS.or_else (Payload.userAgent payload)
                        (JS.or_else (Request.user_agent request) []));
     ClientInfo.device := Some (js "desktop");
     ClientInfo.browser := Some (js "firefox");
     ClientInfo.os := Some (js "Linux");
     ClientInfo.country := Some (js "CH");
     ClientInfo.subdivision1 := None;
     ClientInfo.subdivision2 := None;
     ClientInfo.city := None |}.

Definition world (sc : Scenario) : World :=
  {| DISABLE_BOT_CHECK := no_bot_check sc;
     REMOVE_TRAILING_SLASH := no_trailing_slash sc;
     clickhouse_enabled := false;
     COLLECTION_TYPE :=
       {| CollectionType.event := js "event";
          CollectionType.identify := identify sc |};
     isbot := fun ua =>
       JS.includes (js "bot") (List.map lower (JS.or_else ua []));
     parseRequest := fun _ => Resolves (ParsedBody (body sc));
     secret := js "app-secret";
     visitSalt := js "salt-2026-11-02T10";
     uuid := join;
     parseToken := fun _ _ => Resolves (token sc);
     createToken := fun c key =>
       join [Some (Cache.websiteId c); Some (Cache.sessionId c);
             Some (Cache.visitId c); Some [Z.to_N (Cache.iat c)]; Some key];
     safeDecodeURI := fun v => v;
     fetchWebsite := fun id => Resolves (Some {| Website.id := id |});
     fetchSession := fun websiteId sessionId =>
       Resolves
         (if stored_session sc then
            Some {| Session.id := sessionId;
                    Session.websiteId := websiteId;
                    Session.hostname := None; Session.browser := None;
                    Session.os := None; Session.device := None;
                    Session.screen := None; Session.language := None;
                    Session.country := None; Session.subdivision1 := None;
                    Session.subdivision2 := None; Session.city := None |}
          else None);
     getClientInfo := fun request payload =>
       Resolves (client_info request payload);
     hasBlockedIp := fun _ => blocked sc;
     createSession := fun _ => create_result sc;
     saveEvent := fun _ => Resolves tt;
     saveSessionData := fun _ => Resolves tt;
     serializeError := fun e =>
       JObj [(js "message", JStr (Error.message e))];
     getTime := time_ms sc;
     toLowerCase := List.map lower;
     new_URL := parse_url |}.

Definition website_id : JS.str := js "4f2a9c1e-8b7d-4e6a-9c3b-5d1f0a2b3c4d".

(** A payload with the given url, referrer and data. *)
Definition payload (url referrer : option JS.str) (data : option Object)
    : Payload.t :=
  {| Payload.website := website_id;
     Payload.data := data;
     Payload.hostname := Some (js "shop.example.com");
     Payload.language := Some (js "en-GB");
     Payload.referrer := referrer;
     Payload.screen := Some (js "1920x1080");
     Payload.title := Some (js "Home");
     Payload.url := url;
     Payload.name := None;
     Payload.tag := None;
     Payload.ip := None;
     Payload.userAgent := None |}.

Definition event_body (url referrer : option JS.str) : Body.t :=
  {| Body.type := js "event"; Body.payload := payload url referrer None |}.

Definition identity_body (data : option Object) : Body.t :=
  {| Body.type := js "identity";
     Body.payload := payload None None data |}.

(** A request from a browser, without and with a cache header. *)
Definition request : Request.t :=
  {| Request.user_agent := Some (js "Mozilla/5.0 (X11; Linux x86_64)");
     Request.x_umami_cache := None;
     Request.content := js "{}" |}.

Definition request_with_cache : Request.t :=
  {| Request.user_agent := Some (js "Mozilla/5.0 (X11; Linux x86_64)");
     Request.x_umami_cache := Some (js "eyJhbGciOi");
     Request.content := js "{}" |}.

Definition crawler_request : Request.t :=
  {| Request.user_agent := Some (js "Googlebot/2.1");
     Request.x_umami_cache := None;
     Request.content := js "{}" |}.

(** A first pageview at 2026-11-02 10:00:00 UTC: no token, no stored
    session, [createSession] succeeds. *)
Definition first_visit (b : Body.t) : Scenario :=
  {| body := b;
     token := None;
     stored_session := false;
     create_result := Resolves tt;
     blocked := false;
     time_ms := 1793613600123;
     no_bot_check := None;
     no_trailing_slash := None;
     identify := js "identity" |}.

(** Variations of a scenario. *)
Definition set_token (c : option Cache.t) (sc : Scenario) : Scenario :=
  {| body := body sc; token := c; stored_session := stored_session sc;
     create_result := create_result sc; blocked := blocked sc;
     time_ms := time_ms sc; no_bot_check := no_bot_check sc;
     no_trailing_slash := no_trailing_slash sc; identify := identify sc |}.

Definition set_create_result (r : Result unit) (sc : Scenario) : Scenario :=
  {| body := body sc; token := token sc; stored_session := stored_session sc;
     create_result := r; blocked := blocked sc;
     time_ms := time_ms sc; no_bot_check := no_bot_check sc;
     no_trailing_slash := no_trailing_slash sc; identify := identify sc |}.

Definition set_blocked (b : bool) (sc : Scenario) : Scenario :=
  {| body := body sc; token := token sc; stored_session := stored_session sc;
     create_result := create_result sc; blocked := b;
     time_ms := time_ms sc; no_bot_check := no_bot_check sc;
     no_trailing_slash := no_trailing_slash sc; identify := identify sc |}.

Definition set_no_trailing_slash (v : option JS.str) (sc : Scenario)
    : Scenario :=
  {| body := body sc; token := token sc; stored_session := stored_session sc;
     create_result := create_result sc; blocked := blocked sc;
     time_ms := time_ms sc; no_bot_check := no_bot_check sc;
     no_trailing_slash := v; identify := identify sc |}.

Definition set_identify (v : JS.str) (sc : Scenario) : Scenario :=
  {| body := body sc; token := token sc; stored_session := stored_session sc;
     create_result := create_result sc; blocked := blocked sc;
     time_ms := time_ms sc; no_bot_check := no_bot_check sc;
     no_trailing_slash := no_trailing_slash sc; identify := v |}.

(** The pageview of the home page, from a search result. *)
Definition home : Body.t :=
  event_body (Some (js "/")) (Some (js "https://www.example.com/page?ref=a")).

(** The sample deployment on a first pageview of [home]. *)
Definition deployment : World := world (first_visit home).

(** The same with [REMOVE_TRAILING_SLASH=1]. *)
Definition deployment_strip : World :=
  world (set_no_trailing_slash (Some (js "1")) (first_visit home)).

(** The same with the sample client on the block list. *)
Definition deployment_blocked : World :=
  world (set_blocked true (first_visit home)).

(** The same with a [createSession] that rejects with [message]. *)
Definition deployment_create_fails (message : JS.str) : World :=
  world (set_create_result (Rejects {| Error.message := message |})
                           (first_visit home)).

(** The same for an identity beacon with the given data, with
    [COLLECTION_TYPE.identify] set to [constant]. *)
Definition deployment_identity (constant : JS.str) (data : option Object)
    : World :=
  world (set_identify constant (first_visit (identity_body data))).

(** The sample deployment on a first pageview with the given url and
    referrer. *)
Definition pageview (url referrer : JS.str) : World :=
  world (first_visit (event_body (Some url) (Some referrer))).

(** The same with [REMOVE_TRAILING_SLASH=1]. *)
Definition pageview_strip (url referrer : JS.str) : World :=
  world (set_no_trailing_slash (Some (js "1"))
           (first_visit (event_body (Some url) (Some referrer)))).

(** The sample deployment on a later pageview of [home] that carries a
    token which decodes to [c]. *)
Definition deployment_returning (c : Cache.t) : World :=
  world (set_token (Some c) (first_visit home)).

(** The sample deployment when the website of the payload is not in
    the website store. *)
Definition deployment_unknown_site : World :=
  with_fetchWebsite deployment (fun _ => Resolves None).

(** The sample deployment when the event store is down. *)
Definition deployment_event_store_down : World :=
  with_saveEvent deployment
    (fun _ => Rejects {| Error.message := js "Can't reach database server" |}).

(** The session of the sample browser on the sample website. *)
Definition session_id : JS.str :=
  derive_sessionId deployment (Body.payload home)
                   (client_info request (Body.payload home)).

(** The claims of the token issued for the first pageview of [home]. *)
Definition first_claims : Cache.t :=
  {| Cache.websiteId := website_id;
     Cache.sessionId := session_id;
     Cache.visitId := fresh_visitId deployment session_id;
     Cache.iat := 1793613600 |}.

(** The row that [createSession] gets for the sample pageview. *)
Definition session_row : Session.t :=
  new_session (Body.payload home) (client_info request (Body.payload home))
              session_id.

(** A conflict as the storage layer reports it, and another failure. *)
Definition conflict : Error.t :=
  {| Error.message :=
       js "Unique constraint failed on the fields: (`session_id`)" |}.

Definition outage : Error.t :=
  {| Error.message := js "Can't reach database server" |}.

(** Decoded caches: one issued one minute before the sample request,
    one with issue time [0], one with an empty visit id. *)
Definition visit_1 : JS.str := js "0b7c6d2e-51aa-5a5e-8f0e-2f6c1d9e7a11".

Definition cache_recent : Cache.t :=
  {| Cache.websiteId := website_id; Cache.sessionId := session_id;
     Cache.visitId := visit_1; Cache.iat := 1793613540 |}.

Definition cache_epoch : Cache.t :=
  {| Cache.websiteId := website_id; Cache.sessionId := session_id;
     Cache.visitId := visit_1; Cache.iat := 0 |}.

Definition cache_no_visit : Cache.t :=
  {| Cache.websiteId := website_id; Cache.sessionId := session_id;
     Cache.visitId := []; Cache.iat := 1793613540 |}.

(** A decoded cache that carries the ids of another website and
    session. *)
Definition cache_foreign : Cache.t :=
  {| Cache.websiteId := js "9e1b7a52-0c3d-4f8e-b6a1-7d2c4e5f6a7b";
     Cache.sessionId := js "c0ffee00-1111-5222-8333-444455556666";
     Cache.visitId := visit_1; Cache.iat := 1793613540 |}.

(** A path whose last character before the final slash is a line
    feed: [/a\n/]. *)
Definition path_with_line_feed : JS.str := js "/a" ++ [10%N; JS.chr "/"].

End Sample.

(* ================================================================== *)
(** * Properties of the string functions *)
(* ================================================================== *)

Module JSFacts.
Import JS.

Lemma char_eqb_eq a b : char_eqb a b = true <-> a = b.
Proof. unfold char_eqb. apply N.eqb_eq. Qed.

Lemma char_eqb_refl a : char_eqb a a = true.
Proof. apply char_eqb_eq. reflexivity. Qed.

Lemma eqb_eq a : forall b, eqb a b = true <-> a = b.
Proof.
  induction a as [|x a IH]; intros [|y b]; simpl; split; intro H;
    try reflexivity; try discriminate.
  - apply andb_true_iff in H. destruct H as [Hx Ha].
    apply char_eqb_eq in Hx. apply IH in Ha. congruence.
  - injection H as -> ->. rewrite char_eqb_refl. simpl. apply IH. reflexivity.
Qed.

Lemma or_else_nonempty v d : d <> [] -> or_else v d <> [].
Proof. destruct v as [[|c s]|]; simpl; intros H; auto; discriminate. Qed.

Lemma or_else_truthy v d : truthy v = true -> Some (or_else v d) = v.
Proof. destruct v as [[|c s]|]; simpl; intros H; auto; discriminate. Qed.

(** ** [split] *)

Lemma split_nonempty c s : split c s <> [].
Proof.
  destruct s as [|x s]; simpl; [discriminate|].
  destruct (char_eqb x c); [discriminate|].
  destruct (split c s); discriminate.
Qed.

(** The first piece is the text before the first separator. *)
Lemma split_first c s : nth_error (split c s) 0 = Some (before_first c s).
Proof.
  induction s as [|x s IH]; simpl; [reflexivity|].
  destruct (char_eqb x c); [reflexivity|].
  destruct (split c s) as [|piece pieces]; simpl in *; [discriminate|].
  congruence.
Qed.

(** The second piece is the text between the first separator and the
    next one: what follows a second separator is in later pieces. *)
Lemma split_second c s :
  nth_error (split c s) 1 = option_map (before_first c) (after_first c s).
Proof.
  induction s as [|x s IH]; simpl; [reflexivity|].
  destruct (char_eqb x c) eqn:E.
  - simpl. apply split_first.
  - destruct (split c s) as [|piece pieces] eqn:S; simpl in *.
    + exfalso. exact (split_nonempty c s S).
    + exact IH.
Qed.

(** ** [replace(/www\./, '')] *)

Lemma replace_literal_unfold p r s :
  replace_literal p r s =
  if starts_with p s then r ++ skipn (List.length p) s
  else match s with
       | [] => []
       | c :: s' => c :: replace_literal p r s'
       end.
Proof. destruct s; reflexivity. Qed.

Lemma starts_with_app p s : starts_with p (p ++ s) = true.
Proof.
  induction p as [|x p IH]; simpl; [reflexivity|].
  rewrite char_eqb_refl. exact IH.
Qed.

Lemma skipn_length_app (p s : str) : skipn (List.length p) (p ++ s) = s.
Proof. induction p; simpl; auto. Qed.

(** A leading occurrence of the pattern is the one replaced. *)
Lemma replace_literal_prefix p r s :
  replace_literal p r (p ++ s) = r ++ s.
Proof.
  rewrite replace_literal_unfold, starts_with_app, skipn_length_app.
  reflexivity.
Qed.

(** Without an occurrence of the pattern nothing changes. *)
Lemma replace_literal_absent p r s :
  includes p s = false -> replace_literal p r s = s.
Proof.
  induction s as [|x s IH]; simpl; intro H.
  - apply orb_false_iff in H. destruct H as [H _]. rewrite H. reflexivity.
  - apply orb_false_iff in H. destruct H as [H1 H2]. rewrite H1.
    f_equal. apply IH. destruct s; exact H2.
Qed.

(** ** [replace(/(.+)\/$/, '$1')] *)

(** A match is the whole remaining input: group 1, not empty and free
    of line terminators, then the final slash. *)
Lemma match_group_slash_end_sound s : forall g,
  match_group_slash_end s = Some g ->
  s = g ++ [chr "/"] /\ g <> [] /\ forallb is_dot g = true.
Proof.
  induction s as [|c s IH]; intros g H; [discriminate|].
  destruct s as [|d [|d' s']].
  - cbn in H. destruct (is_dot c); discriminate.
  - cbn [match_group_slash_end] in H.
    destruct (is_dot c) eqn:D; [|discriminate].
    destruct (char_eqb d (chr "/")) eqn:E; [|discriminate].
    apply char_eqb_eq in E. subst d.
    assert (G : g = [c]) by congruence. subst g.
    cbn [forallb app]. rewrite D. repeat split; discriminate.
  - assert (U : match_group_slash_end (c :: d :: d' :: s') =
                if is_dot c then
                  match match_group_slash_end (d :: d' :: s') with
                  | Some g => Some (c :: g)
                  | None => None
                  end
                else None) by reflexivity.
    rewrite U in H. clear U.
    destruct (is_dot c) eqn:D; [|discriminate].
    destruct (match_group_slash_end (d :: d' :: s')) as [g'|] eqn:M;
      [|discriminate].
    assert (G : g = c :: g') by congruence. subst g.
    destruct (IH g' eq_refl) as (E & _ & F).
    rewrite E. cbn [forallb app]. rewrite D, F. repeat split; discriminate.
Qed.

Lemma app_last_inj (a b : str) x y : a ++ [x] = b ++ [y] -> a = b /\ x = y.
Proof. intro H. apply app_inj_tail in H. exact H. Qed.

(** One trailing slash is removed when the character before it is not
    a line terminator. *)
Lemma replace_group_slash_end_strips q c :
  is_line_terminator c = false ->
  replace_group_slash_end (q ++ [c; chr "/"]) = q ++ [c].
Proof.
  intro L. induction q as [|x q IH].
  - simpl. unfold is_dot. rewrite L. simpl. reflexivity.
  - change ((x :: q) ++ [c; chr "/"]) with (x :: (q ++ [c; chr "/"])).
    assert (U : forall l : str, replace_group_slash_end (x :: l) =
              match match_group_slash_end (x :: l) with
              | Some g => g
              | None => x :: replace_group_slash_end l
              end) by reflexivity.
    rewrite U.
    destruct (match_group_slash_end (x :: q ++ [c; chr "/"])) as [g|] eqn:M.
    + apply match_group_slash_end_sound in M. destruct M as (E & _).
      change (x :: q ++ [c; chr "/"]) with ((x :: q) ++ [c; chr "/"]) in E.
      replace ((x :: q) ++ [c; chr "/"]) with (((x :: q) ++ [c]) ++ [chr "/"])
        in E by (rewrite <- app_assoc; reflexivity).
      apply app_last_inj in E. destruct E as [E _]. symmetry. exact E.
    + rewrite IH. reflexivity.
Qed.

(** Without a final slash nothing matches and nothing changes. *)
Lemma replace_group_slash_end_no_slash s :
  (forall q, s <> q ++ [chr "/"]) -> replace_group_slash_end s = s.
Proof.
  induction s as [|x s IH]; intro H; [reflexivity|].
  assert (U : replace_group_slash_end (x :: s) =
              match match_group_slash_end (x :: s) with
              | Some g => g
              | None => x :: replace_group_slash_end s
              end) by reflexivity.
  rewrite U.
  destruct (match_group_slash_end (x :: s)) as [g|] eqn:M.
  - apply match_group_slash_end_sound in M. destruct M as (E & _).
    exfalso. exact (H g E).
  - f_equal. apply IH. intros q E. apply (H (x :: q)). rewrite E. reflexivity.
Qed.

(** The replacement never empties a path. *)
Lemma replace_group_slash_end_nonempty s :
  s <> [] -> replace_group_slash_end s <> [].
Proof.
  destruct s as [|x s]; intro H; [congruence|].
  assert (U : replace_group_slash_end (x :: s) =
              match match_group_slash_end (x :: s) with
              | Some g => g
              | None => x :: replace_group_slash_end s
              end) by reflexivity.
  rewrite U.
  destruct (match_group_slash_end (x :: s)) as [g|] eqn:M.
  - apply match_group_slash_end_sound in M. tauto.
  - discriminate.
Qed.

End JSFacts.

(* ================================================================== *)
(** * The visit window *)
(* ================================================================== *)

Section VisitWindow.

Variable w : World.

(** Without a cache the visit is fresh and starts now. *)
Lemma visit_info_no_cache sessionId now :
  visit_info w None sessionId now = (fresh_visitId w sessionId, now).
Proof.
  unfold visit_info. simpl. rewrite Z.sub_diag. reflexivity.
Qed.

(** The issue time that comes out is never more than 1800 seconds old. *)
Lemma visit_info_active cache sessionId now :
  now - snd (visit_info w cache sessionId now) <= 1800.
Proof.
  unfold visit_info.
  destruct (Z.gtb_spec (now - JS.or_elseZ (cache_iat cache) now) 1800);
    simpl; lia.
Qed.

(** C2, as amended: for a decoded cache with a non-zero issue time [T],
    a request at [now] with [now - T <= 1800] reuses the cached visit id
    (when it is not the empty string) and [T]; with [now - T > 1800] it
    gets the fresh visit id [uuid(sessionId, visitSalt())] and the issue
    time [now]. *)
Theorem visit_window (c : Cache.t) (sessionId : JS.str) (now : Z) :
  Cache.iat c <> 0 ->
  (now - Cache.iat c <= 1800 -> Cache.visitId c <> [] ->
     visit_info w (Some c) sessionId now = (Cache.visitId c, Cache.iat c)) /\
  (now - Cache.iat c > 1800 ->
     visit_info w (Some c) sessionId now
       = (uuid w [Some sessionId; Some (visitSalt w)], now)).
Proof.
  intro T0. unfold visit_info, cache_iat, cache_visitId. simpl.
  destruct (Z.eqb_spec (Cache.iat c) 0) as [E|_]; [contradiction|].
  split.
  - intros Hle Hv.
    destruct (Z.gtb_spec (now - Cache.iat c) 1800) as [G|_]; [lia|].
    destruct (Cache.visitId c); [contradiction|reflexivity].
  - intros Hgt.
    destruct (Z.gtb_spec (now - Cache.iat c) 1800) as [_|G]; [|lia].
    reflexivity.
Qed.

End VisitWindow.

(** The rollover of the spec's example: issued at [T], reused at
    [T + 1799], replaced at [T + 1801]. *)
Lemma visit_window_witness :
  Cache.iat Sample.cache_recent <> 0 /\
  visit_info Sample.deployment (Some Sample.cache_recent) Sample.session_id
             (1793613540 + 1799)
    = (Sample.visit_1, 1793613540) /\
  visit_info Sample.deployment (Some Sample.cache_recent) Sample.session_id
             (1793613540 + 1801)
    = (uuid Sample.deployment
         [Some Sample.session_id; Some (visitSalt Sample.deployment)],
       1793613540 + 1801).
Proof.
  assert (T0 : Cache.iat Sample.cache_recent <> 0) by (simpl; lia).
  split; [exact T0|].
  destruct (visit_window Sample.deployment Sample.cache_recent
              Sample.session_id (1793613540 + 1799) T0) as [A _].
  destruct (visit_window Sample.deployment Sample.cache_recent
              Sample.session_id (1793613540 + 1801) T0) as [_ B].
  split.
  - apply A; [simpl; lia | discriminate].
  - apply B. simpl. lia.
Defined.

(** C2 as stated fails at a cache whose issue time is [0] and at a
    cache whose visit id is the empty string: both are falsy, so the
    defaults take their place.  With [T = 0] a request at [now = 1000]
    gets the issue time [1000] instead of [0], and a request at
    [now = 1793613600] keeps the cached visit id instead of a fresh
    one; with an empty cached visit id a request inside the window gets
    the fresh visit id. *)
Lemma visit_window_counterexample :
  visit_info Sample.deployment (Some Sample.cache_epoch) Sample.session_id
             1000
    = (Sample.visit_1, 1000) /\
  visit_info Sample.deployment (Some Sample.cache_epoch) Sample.session_id
             1793613600
    = (Sample.visit_1, 1793613600) /\
  JS.eqb (fresh_visitId Sample.deployment Sample.session_id) Sample.visit_1
    = false /\
  visit_info Sample.deployment (Some Sample.cache_no_visit) Sample.session_id
             1793613600
    = (fresh_visitId Sample.deployment Sample.session_id, 1793613540) /\
  JS.eqb (fresh_visitId Sample.deployment Sample.session_id) [] = false.
Proof. repeat split; vm_compute; reflexivity. Qed.

(* ================================================================== *)
(** * URL and referrer normalisation *)
(* ================================================================== *)

Section Normalisation.

Variable w : World.

(** What [decode_and_split] yields for a value that decodes to [s]:
    the text before the first [?], and the text between the first and
    the second [?]. *)
Lemma decode_and_split_decoded v s :
  safeDecodeURI w v = Some s ->
  decode_and_split w v =
    (Some (JS.before_first (JS.chr "?") s),
     option_map (JS.before_first (JS.chr "?"))
                (JS.after_first (JS.chr "?") s)).
Proof.
  intro D. unfold decode_and_split. rewrite D.
  rewrite JSFacts.split_first, JSFacts.split_second. reflexivity.
Qed.

Lemma decode_and_split_undefined v :
  safeDecodeURI w v = None -> decode_and_split w v = (None, None).
Proof. intro D. unfold decode_and_split. rewrite D. reflexivity. Qed.

(** The path is never empty once the trailing-slash policy ran. *)
Lemma remove_trailing_slash_nonempty p :
  p <> [] -> remove_trailing_slash w p <> [].
Proof.
  intro H. unfold remove_trailing_slash.
  destruct (JS.truthy (REMOVE_TRAILING_SLASH w)); [|exact H].
  apply JSFacts.replace_group_slash_end_nonempty. exact H.
Qed.

(** The outcome of [normalize] when the referrer is not of the
    absolute shape. *)
Lemma normalize_relative url referrer :
  JS.test_anchored absolute_url_re
    (JS.to_string (fst (decode_and_split w referrer))) = false ->
  normalize w url referrer =
    (Next {| urlPath :=
               remove_trailing_slash w
                 (JS.or_else (fst (decode_and_split w url)) (js "/"));
             urlQuery := snd (decode_and_split w url);
             referrerPath := fst (decode_and_split w referrer);
             referrerQuery := snd (decode_and_split w referrer);
             referrerDomain := [] |}, []).
Proof.
  intro T. unfold normalize.
  destruct (decode_and_split w url) as [p q].
  destruct (decode_and_split w referrer) as [rp rq].
  simpl in T. rewrite T. reflexivity.
Qed.

(** The outcome of [normalize] when the referrer is of the absolute
    shape and the URL constructor accepts it. *)
Lemma normalize_absolute url referrer refUrl :
  JS.test_anchored absolute_url_re
    (JS.to_string (fst (decode_and_split w referrer))) = true ->
  new_URL w (JS.to_string referrer) = Some refUrl ->
  normalize w url referrer =
    (Next {| urlPath :=
               remove_trailing_slash w
                 (JS.or_else (fst (decode_and_split w url)) (js "/"));
             urlQuery := snd (decode_and_split w url);
             referrerPath := Some (URL.pathname refUrl);
             referrerQuery := Some (JS.substring1 (URL.search refUrl));
             referrerDomain := strip_www (URL.hostname refUrl) |}, []).
Proof.
  intros T U. unfold normalize.
  destruct (decode_and_split w url) as [p q].
  destruct (decode_and_split w referrer) as [rp rq].
  simpl in T. rewrite T, U. reflexivity.
Qed.

(** The outcome of [normalize] when the referrer is of the absolute
    shape and the URL constructor rejects it: the TypeError escapes. *)
Lemma normalize_throws url referrer :
  JS.test_anchored absolute_url_re
    (JS.to_string (fst (decode_and_split w referrer))) = true ->
  new_URL w (JS.to_string referrer) = None ->
  normalize w url referrer = (Throw invalid_url, []).
Proof.
  intros T U. unfold normalize.
  destruct (decode_and_split w url) as [p q].
  destruct (decode_and_split w referrer) as [rp rq].
  simpl in T. rewrite T, U. reflexivity.
Qed.

(** [normalize] makes no call, and it falls through or throws. *)
Lemma normalize_cases url referrer :
  (exists n, normalize w url referrer = (Next n, [])) \/
  normalize w url referrer = (Throw invalid_url, []).
Proof.
  destruct (JS.test_anchored absolute_url_re
              (JS.to_string (fst (decode_and_split w referrer)))) eqn:T.
  - destruct (new_URL w (JS.to_string referrer)) as [u|] eqn:U.
    + left. eexists. apply normalize_absolute; eassumption.
    + right. apply normalize_throws; assumption.
  - left. eexists. apply normalize_relative. exact T.
Qed.

(** A leading [www.] is removed, and a host name without [www.] is
    kept. *)
Lemma strip_www_leading h : strip_www (js "www." ++ h) = h.
Proof. unfold strip_www. apply JSFacts.replace_literal_prefix. Qed.

Lemma strip_www_absent h :
  JS.includes (js "www.") h = false -> strip_www h = h.
Proof. unfold strip_www. apply JSFacts.replace_literal_absent. Qed.

(** C3, as amended: when the decoded referrer path is not of the
    absolute-URL shape, or the URL constructor accepts the referrer,
    normalisation raises no exception and makes no call; urlPath is a
    string that is not empty and referrerDomain is a string, the empty
    one for a referrer that is not absolute.  (urlQuery, referrerPath
    and referrerQuery are a string or undefined.) *)
Theorem normalize_without_exception (url referrer : option JS.str) :
  JS.test_anchored absolute_url_re
    (JS.to_string (fst (decode_and_split w referrer))) = false
  \/ new_URL w (JS.to_string referrer) <> None ->
  exists n,
    normalize w url referrer = (Next n, []) /\
    urlPath n <> [] /\
    (JS.test_anchored absolute_url_re
       (JS.to_string (fst (decode_and_split w referrer))) = false ->
     referrerDomain n = []).
Proof.
  intro H.
  assert (P : remove_trailing_slash w
                (JS.or_else (fst (decode_and_split w url)) (js "/")) <> []).
  { apply remove_trailing_slash_nonempty.
    apply JSFacts.or_else_nonempty. discriminate. }
  destruct (JS.test_anchored absolute_url_re
              (JS.to_string (fst (decode_and_split w referrer)))) eqn:T.
  - destruct H as [H|H]; [discriminate|].
    destruct (new_URL w (JS.to_string referrer)) as [u|] eqn:U;
      [|congruence].
    eexists. split; [apply normalize_absolute; eassumption|].
    split; [exact P | discriminate].
  - eexists. split; [apply normalize_relative; exact T|].
    split; [exact P | reflexivity].
Qed.

(** Where the trailing-slash step does what is meant: with the
    configuration enabled, a path that ends in a slash and is longer
    than the root path loses exactly that last slash when the
    character before it is not a line terminator, and the root path
    stays as it is; with the configuration disabled the path is
    unchanged. *)
Lemma trailing_slash_policy (p : JS.str) :
  (JS.truthy (REMOVE_TRAILING_SLASH w) = true ->
     (forall q c, p = q ++ [c; JS.chr "/"] ->
                  JS.is_line_terminator c = false ->
                  remove_trailing_slash w p = q ++ [c]) /\
     (p = js "/" -> remove_trailing_slash w p = js "/")) /\
  (JS.truthy (REMOVE_TRAILING_SLASH w) = false ->
     remove_trailing_slash w p = p).
Proof.
  unfold remove_trailing_slash. split; intro E; rewrite E.
  - split.
    + intros q c -> L. apply JSFacts.replace_group_slash_end_strips. exact L.
    + intros ->. reflexivity.
  - reflexivity.
Qed.

End Normalisation.

(** The policy on sample paths: [/docs/] becomes [/docs], [/docs//]
    becomes [/docs/], [/] and [/docs] stay. *)
Lemma trailing_slash_examples :
  remove_trailing_slash Sample.deployment_strip (js "/docs/") = js "/docs" /\
  remove_trailing_slash Sample.deployment_strip (js "/docs//") = js "/docs/" /\
  remove_trailing_slash Sample.deployment_strip (js "/") = js "/" /\
  remove_trailing_slash Sample.deployment_strip (js "/docs") = js "/docs" /\
  remove_trailing_slash Sample.deployment (js "/docs/") = js "/docs/".
Proof. repeat split. Qed.

(** C9, at the url [/a\n/] with REMOVE_TRAILING_SLASH set: the path
    is longer than the root path and ends in a slash, but [.] does not
    match the line feed before the slash, so the pattern matches
    nowhere, the slash stays, and the event row is saved with the
    path [/a\n/]. *)
Theorem slash_after_line_feed_kept :
  JS.truthy (REMOVE_TRAILING_SLASH Sample.deployment_strip) = true /\
  remove_trailing_slash Sample.deployment_strip Sample.path_with_line_feed
    = Sample.path_with_line_feed /\
  normalize Sample.deployment_strip (Some Sample.path_with_line_feed)
            (Some (js "/local"))
    = (Next {| urlPath := Sample.path_with_line_feed;
               urlQuery := None;
               referrerPath := Some (js "/local");
               referrerQuery := None;
               referrerDomain := [] |}, []) /\
  exists e,
    In (CallSaveEvent e)
       (snd (POST (Sample.pageview_strip Sample.path_with_line_feed
                     (js "/local"))
                  Sample.request)) /\
    Event.urlPath e = Sample.path_with_line_feed.
Proof.
  split; [reflexivity|]. split; [reflexivity|].
  split; [vm_compute; reflexivity|].
  eexists. split; [vm_compute; do 7 right; left; reflexivity|].
  reflexivity.
Qed.

(** The spec's examples: url [/foo/bar?x=1] and the referrer
    [https://www.example.com/page?ref=a]; the referrer [/local]. *)
Lemma normalize_examples :
  normalize Sample.deployment (Some (js "/foo/bar?x=1"))
            (Some (js "https://www.example.com/page?ref=a"))
    = (Next {| urlPath := js "/foo/bar";
               urlQuery := Some (js "x=1");
               referrerPath := Some (js "/page");
               referrerQuery := Some (js "ref=a");
               referrerDomain := js "example.com" |}, []) /\
  normalize Sample.deployment (Some (js "/foo/bar?x=1")) (Some (js "/local"))
    = (Next {| urlPath := js "/foo/bar";
               urlQuery := Some (js "x=1");
               referrerPath := Some (js "/local");
               referrerQuery := None;
               referrerDomain := [] |}, []).
Proof. split; vm_compute; reflexivity. Qed.

Lemma normalize_without_exception_witness :
  (JS.test_anchored absolute_url_re
     (JS.to_string
        (fst (decode_and_split Sample.deployment (Some (js "/local")))))
     = false
   \/ new_URL Sample.deployment (JS.to_string (Some (js "/local"))) <> None) /\
  exists n,
    normalize Sample.deployment (Some (js "/foo")) (Some (js "/local"))
      = (Next n, []) /\
    urlPath n <> [] /\
    (JS.test_anchored absolute_url_re
       (JS.to_string
          (fst (decode_and_split Sample.deployment (Some (js "/local")))))
       = false ->
     referrerDomain n = []).
Proof.
  assert (H : JS.test_anchored absolute_url_re
                (JS.to_string
                   (fst (decode_and_split Sample.deployment
                           (Some (js "/local"))))) = false
              \/ new_URL Sample.deployment (JS.to_string (Some (js "/local")))
                 <> None)
    by (left; reflexivity).
  split; [exact H|].
  exact (normalize_without_exception Sample.deployment
           (Some (js "/foo")) (Some (js "/local")) H).
Defined.

(** C3 as stated fails twice.  For the url [/foo] and the referrer
    [/local], which have no [?], urlQuery and referrerQuery are
    undefined, not the empty string.  For the referrer [1://a], which is
    of the absolute shape and is no URL, the constructor's TypeError
    escapes the normalisation and the handler. *)
Lemma normalize_counterexample :
  normalize Sample.deployment (Some (js "/foo")) (Some (js "/local"))
    = (Next {| urlPath := js "/foo";
               urlQuery := None;
               referrerPath := Some (js "/local");
               referrerQuery := None;
               referrerDomain := [] |}, []) /\
  JS.test_anchored absolute_url_re (js "1://a") = true /\
  normalize Sample.deployment (Some (js "/foo")) (Some (js "1://a"))
    = (Throw invalid_url, []) /\
  fst (POST (Sample.pageview (js "/foo") (js "1://a")) Sample.request)
    = Threw invalid_url.
Proof. repeat split; vm_compute; reflexivity. Qed.

(** C5, at the url [/foo?x=1?y=2]: the query that is stored is [x=1];
    the text after the second [?] is in a third piece of the split,
    which the handler does not read. *)
Theorem later_question_mark_dropped :
  JS.split (JS.chr "?") (js "/foo?x=1?y=2")
    = [js "/foo"; js "x=1"; js "y=2"] /\
  normalize Sample.deployment (Some (js "/foo?x=1?y=2")) (Some (js "/local"))
    = (Next {| urlPath := js "/foo";
               urlQuery := Some (js "x=1");
               referrerPath := Some (js "/local");
               referrerQuery := None;
               referrerDomain := [] |}, []) /\
  exists e,
    In (CallSaveEvent e)
       (snd (POST (Sample.pageview (js "/foo?x=1?y=2") (js "/local"))
                  Sample.request)) /\
    Event.urlPath e = js "/foo" /\
    Event.urlQuery e = Some (js "x=1").
Proof.
  split; [vm_compute; reflexivity|]. split; [vm_compute; reflexivity|].
  eexists. split; [vm_compute; do 7 right; left; reflexivity|].
  split; reflexivity.
Qed.

(** C4, at the referrers [https://blog.www.example.com/] and
    [https://awww.example.com/x]: the pattern is not anchored, so the
    first [www.] is removed wherever it stands, and the domains that are
    stored are [blog.example.com] and [aexample.com]. *)
Theorem inner_www_removed :
  normalize Sample.deployment (Some (js "/"))
            (Some (js "https://blog.www.example.com/"))
    = (Next {| urlPath := js "/";
               urlQuery := None;
               referrerPath := Some (js "/");
               referrerQuery := Some [];
               referrerDomain := js "blog.example.com" |}, []) /\
  normalize Sample.deployment (Some (js "/"))
            (Some (js "https://awww.example.com/x"))
    = (Next {| urlPath := js "/";
               urlQuery := None;
               referrerPath := Some (js "/x");
               referrerQuery := Some [];
               referrerDomain := js "aexample.com" |}, []) /\
  exists e,
    In (CallSaveEvent e)
       (snd (POST (Sample.pageview (js "/")
                     (js "https://blog.www.example.com/"))
                  Sample.request)) /\
    Event.referrerDomain e = js "blog.example.com".
Proof.
  split; [vm_compute; reflexivity|]. split; [vm_compute; reflexivity|].
  eexists. split; [vm_compute; do 7 right; left; reflexivity|].
  reflexivity.
Qed.

(* ================================================================== *)
(** * Sequencing and traces *)
(* ================================================================== *)

Section Sequencing.

Context {A B : Type}.

Lemma bind_next (m : M A) (k : A -> M B) a :
  fst m = Next a -> bind m k = (fst (k a), snd m ++ snd (k a)).
Proof. intro H. unfold bind. rewrite H. reflexivity. Qed.

Lemma bind_return (m : M A) (k : A -> M B) r :
  fst m = Return r -> bind m k = (Return r, snd m).
Proof. intro H. unfold bind. rewrite H. reflexivity. Qed.

Lemma bind_throw (m : M A) (k : A -> M B) e :
  fst m = Throw e -> bind m k = (Throw e, snd m).
Proof. intro H. unfold bind. rewrite H. reflexivity. Qed.

Lemma bind_ret_l (a : A) (k : A -> M B) : bind (ret a) k = k a.
Proof. unfold bind, ret. simpl. destruct (k a). reflexivity. Qed.

(** The continuation matters only at the value the first part falls
    through with. *)
Lemma bind_ext (m : M A) (k1 k2 : A -> M B) :
  (forall a, fst m = Next a -> k1 a = k2 a) -> bind m k1 = bind m k2.
Proof.
  intro H. unfold bind. destruct (fst m) as [a| |] eqn:E; try reflexivity.
  rewrite (H a eq_refl). reflexivity.
Qed.

Lemma snd_bind_ext (m : M A) (k1 k2 : A -> M B) :
  (forall a, fst m = Next a -> snd (k1 a) = snd (k2 a)) ->
  snd (bind m k1) = snd (bind m k2).
Proof.
  intro H. unfold bind. destruct (fst m) as [a| |] eqn:E; try reflexivity.
  simpl. rewrite (H a eq_refl). reflexivity.
Qed.

(** A call of a sequence is a call of its first part, or a call of the
    rest after the first part fell through. *)
Lemma in_bind (m : M A) (k : A -> M B) c :
  In c (snd (bind m k)) ->
  In c (snd m) \/ exists a, fst m = Next a /\ In c (snd (k a)).
Proof.
  unfold bind. destruct (fst m) as [a| |] eqn:E; simpl; intro H; auto.
  apply in_app_or in H. destruct H as [H|H]; [left; exact H|].
  right. exists a. split; [reflexivity | exact H].
Qed.

(** The calls of the first part are calls of the sequence. *)
Lemma in_bind_first (m : M A) (k : A -> M B) c :
  In c (snd m) -> In c (snd (bind m k)).
Proof.
  unfold bind. destruct (fst m); simpl; intro H; auto.
  apply in_or_app. left. exact H.
Qed.

(** A sequence falls through only when both parts do. *)
Lemma bind_falls_through (m : M A) (k : A -> M B) b :
  fst (bind m k) = Next b ->
  exists a, fst m = Next a /\ fst (k a) = Next b.
Proof.
  unfold bind. destruct (fst m) as [a| |] eqn:E; simpl; intro H;
    try discriminate.
  exists a. split; [reflexivity | exact H].
Qed.

End Sequencing.

Lemma bind_assoc {A B C} (m : M A) (k : A -> M B) (h : B -> M C) :
  bind (bind m k) h = bind m (fun a => bind (k a) h).
Proof.
  unfold bind. destruct (fst m) as [a| |]; simpl; try reflexivity.
  destruct (fst (k a)) as [b| |]; simpl; try reflexivity.
  rewrite app_assoc. reflexivity.
Qed.

Lemma await_falls_through {A} (c : Call) (r : Result A) a :
  fst (await c r) = Next a -> r = Resolves a.
Proof. destruct r; simpl; intro H; congruence. Qed.

Lemma in_await {A} (c c' : Call) (r : Result A) :
  In c' (snd (await c r)) -> c' = c.
Proof. destruct r; simpl; intros [H|[]]; auto. Qed.

Lemma snd_complete (m : M Response) : snd (complete m) = snd m.
Proof. unfold complete. destruct (fst m); reflexivity. Qed.

(** Prefixing the calls made so far to a completed run. *)
Lemma complete_bind_next {A} (m : M A) (k : A -> M Response) a :
  fst m = Next a ->
  complete (bind m k) = (fst (complete (k a)), snd m ++ snd (k a)).
Proof.
  intro H. rewrite (bind_next _ _ _ H). unfold complete. simpl.
  destruct (fst (k a)); reflexivity.
Qed.

(* ================================================================== *)
(** * The steps of the handler *)
(* ================================================================== *)

Section Steps.

Variable w : World.

(** The handler is the sequence of its phases. *)
Lemma POST_body_phases request : POST_body w request = POST_phases w request.
Proof.
  unfold POST_body, POST_phases, prelude.
  rewrite bind_assoc. apply bind_ext. intros _ _.
  rewrite bind_assoc. apply bind_ext. intros body _.
  rewrite bind_assoc. apply bind_ext. intros cache _.
  rewrite bind_assoc. apply bind_ext. intros _ _.
  rewrite bind_ret_l. simpl.
  unfold resolve_and_collect, client_check, session_and_collect.
  rewrite bind_assoc. apply bind_ext. intros info _.
  rewrite bind_assoc. apply bind_ext. intros _ _.
  rewrite bind_ret_l. reflexivity.
Qed.

(** ** The prelude *)

Lemma in_bot_check request c : ~ In c (snd (bot_check w request)).
Proof.
  unfold bot_check.
  destruct (negb (JS.truthy (DISABLE_BOT_CHECK w))
            && isbot w (Request.user_agent request)); simpl; auto.
Qed.

Lemma in_parse_body request c :
  In c (snd (parse_body w request)) -> c = CallParseRequest request.
Proof.
  unfold parse_body. intro H. apply in_bind in H.
  destruct H as [H|(p & _ & H)].
  - apply in_await in H. exact H.
  - destruct p; simpl in H; contradiction.
Qed.

Lemma parse_body_falls_through request body :
  fst (parse_body w request) = Next body ->
  parseRequest w request = Resolves (ParsedBody body).
Proof.
  unfold parse_body. intro H. apply bind_falls_through in H.
  destruct H as (p & P & H). apply await_falls_through in P.
  destruct p; simpl in H; congruence.
Qed.

Lemma in_cache_check request c :
  In c (snd (cache_check w request)) ->
  exists h, Request.x_umami_cache request = Some h /\ h <> [] /\
            c = CallParseToken h (secret w).
Proof.
  unfold cache_check.
  destruct (Request.x_umami_cache request) as [[|x h]|]; simpl;
    try contradiction.
  intro H. apply in_await in H.
  exists (x :: h). repeat split; [discriminate | exact H].
Qed.

(** A cache is there only when the header was and the token decoded
    to it. *)
Lemma cache_check_decoded request c :
  fst (cache_check w request) = Next (Some c) ->
  exists h, Request.x_umami_cache request = Some h /\
            parseToken w h (secret w) = Resolves (Some c).
Proof.
  unfold cache_check.
  destruct (Request.x_umami_cache request) as [[|x h]|]; simpl;
    try discriminate.
  intro H. apply await_falls_through in H. eauto.
Qed.

Lemma in_find_website cache websiteId c :
  In c (snd (find_website w cache websiteId)) ->
  JS.truthy (cache_websiteId cache) = false /\ c = CallFetchWebsite websiteId.
Proof.
  unfold find_website.
  destruct (JS.truthy (cache_websiteId cache)); simpl; [contradiction|].
  intro H. apply in_bind in H. destruct H as [H|(p & _ & H)].
  - apply in_await in H. auto.
  - destruct p; simpl in H; contradiction.
Qed.

Lemma in_prelude request c :
  In c (snd (prelude w request)) -> is_prelude_call w request c.
Proof.
  unfold prelude, is_prelude_call. intro H.
  apply in_bind in H. destruct H as [H|(_ & _ & H)].
  { exfalso. exact (in_bot_check _ _ H). }
  apply in_bind in H. destruct H as [H|(body & _ & H)].
  { left. apply in_parse_body. exact H. }
  apply in_bind in H. destruct H as [H|(cache & _ & H)].
  { right. left. apply in_cache_check in H.
    destruct H as (h & _ & _ & ->). eauto. }
  apply in_bind in H. destruct H as [H|(_ & _ & H)].
  { right. right. apply in_find_website in H. destruct H as [_ ->]. eauto. }
  simpl in H. contradiction.
Qed.

Lemma prelude_falls_through request body cache :
  fst (prelude w request) = Next (body, cache) ->
  parseRequest w request = Resolves (ParsedBody body) /\
  fst (cache_check w request) = Next cache.
Proof.
  unfold prelude. intro H.
  apply bind_falls_through in H. destruct H as (_ & _ & H).
  apply bind_falls_through in H. destruct H as (body' & P & H).
  apply bind_falls_through in H. destruct H as (cache' & C & H).
  apply bind_falls_through in H. destruct H as (_ & _ & H).
  simpl in H. injection H as <- <-.
  split; [apply parse_body_falls_through; exact P | exact C].
Qed.

(** ** The client check *)

Lemma in_ip_block ip c :
  In c (snd (ip_block w ip)) -> c = CallHasBlockedIp ip.
Proof.
  unfold ip_block, call, bind. simpl.
  destruct (hasBlockedIp w ip); simpl; intros [H|[]]; auto.
Qed.

Lemma in_client_check request payload c :
  In c (snd (client_check w request payload)) ->
  c = CallGetClientInfo request payload \/
  exists info, getClientInfo w request payload = Resolves info /\
               c = CallHasBlockedIp (ClientInfo.ip info).
Proof.
  unfold client_check. intro H.
  apply in_bind in H. destruct H as [H|(info & I & H)].
  { left. apply in_await in H. exact H. }
  apply await_falls_through in I.
  apply in_bind in H. destruct H as [H|(_ & _ & H)].
  - right. exists info. split; [exact I|]. apply in_ip_block. exact H.
  - simpl in H. contradiction.
Qed.

(** A blocked client: the check returns the forbidden response after
    the block-list check. *)
Lemma client_check_blocked request payload info :
  getClientInfo w request payload = Resolves info ->
  hasBlockedIp w (ClientInfo.ip info) = true ->
  client_check w request payload =
    (Return forbidden,
     [CallGetClientInfo request payload;
      CallHasBlockedIp (ClientInfo.ip info)]).
Proof.
  intros I B. unfold client_check, ip_block, call, bind. rewrite I. simpl.
  rewrite B. reflexivity.
Qed.

(** A client that passes the check is not blocked. *)
Lemma client_check_falls_through request payload info :
  fst (client_check w request payload) = Next info ->
  getClientInfo w request payload = Resolves info /\
  hasBlockedIp w (ClientInfo.ip info) = false /\
  snd (client_check w request payload) =
    [CallGetClientInfo request payload;
     CallHasBlockedIp (ClientInfo.ip info)].
Proof.
  unfold client_check, ip_block, call, bind.
  destruct (getClientInfo w request payload) as [i|e]; simpl;
    [|discriminate].
  destruct (hasBlockedIp w (ClientInfo.ip i)) eqn:B; simpl;
    [discriminate|].
  intro H. injection H as <-. auto.
Qed.

End Steps.

Section SessionAndCollect.

Variable w : World.

(** ** Find session *)

Lemma in_find_session cache payload info sessionId c :
  In c (snd (find_session w cache payload info sessionId)) ->
  c = CallFetchSession (Payload.website payload) sessionId \/
  c = CallCreateSession (new_session payload info sessionId).
Proof.
  unfold find_session.
  destruct (negb (JS.truthy (cache_sessionId cache))); simpl;
    [|contradiction].
  intro H. apply in_bind in H. destruct H as [H|(session & _ & H)].
  { left. apply in_await in H. exact H. }
  destruct session as [s|]; [simpl in H; contradiction|].
  destruct (negb (clickhouse_enabled w)); [|simpl in H; contradiction].
  unfold try_catch in H.
  destruct (createSession w (new_session payload info sessionId)) as [u|e];
    simpl in H.
  - destruct H as [H|[]]. auto.
  - destruct H as [H|H]; [auto|].
    unfold on_create_error in H.
    destruct (JS.includes (js "unique constraint")
                (toLowerCase w (Error.message e)));
      simpl in H; contradiction.
Qed.

(** When [createSession] is called it is the last call of the step,
    and the step ends by what the call does: it falls through when the
    call resolves or rejects with a message that contains
    [unique constraint]; otherwise it returns the server error. *)
Lemma find_session_creates cache payload info sessionId s :
  In (CallCreateSession s)
     (snd (find_session w cache payload info sessionId)) ->
  s = new_session payload info sessionId /\
  snd (find_session w cache payload info sessionId) =
    [CallFetchSession (Payload.website payload) sessionId;
     CallCreateSession s] /\
  fst (find_session w cache payload info sessionId) =
    match createSession w s with
    | Resolves _ => Next tt
    | Rejects e =>
        if JS.includes (js "unique constraint")
             (toLowerCase w (Error.message e))
        then Next tt
        else Return (serverError (serializeError w e))
    end.
Proof.
  intro H.
  assert (E : s = new_session payload info sessionId).
  { apply in_find_session in H. destruct H as [H|H]; congruence. }
  split; [exact E|]. subst s. revert H.
  unfold find_session.
  destruct (negb (JS.truthy (cache_sessionId cache))); simpl;
    [|contradiction].
  unfold bind at 1 2 3.
  destruct (fetchSession w (Payload.website payload) sessionId)
    as [[s|]|e]; simpl.
  - intros [H|[]]. discriminate.
  - destruct (negb (clickhouse_enabled w)); simpl.
    + intros _. unfold try_catch, on_create_error.
      destruct (createSession w (new_session payload info sessionId))
        as [[]|e]; simpl; [auto|].
      destruct (JS.includes (js "unique constraint")
                  (toLowerCase w (Error.message e))); simpl; auto.
    + intros [H|[]]. discriminate.
  - intros [H|[]]. discriminate.
Qed.

(** ** Visit info and persistence *)

Lemma in_collect_event body info sessionId visitId c :
  In c (snd (collect_event w body info sessionId visitId)) ->
  JS.eqb (Body.type body) (CollectionType.event (COLLECTION_TYPE w)) = true /\
  exists n, c = CallSaveEvent
                  (new_event (Body.payload body) info sessionId visitId n).
Proof.
  unfold collect_event.
  destruct (JS.eqb (Body.type body) (CollectionType.event (COLLECTION_TYPE w)));
    simpl; [|contradiction].
  intro H. split; [reflexivity|].
  apply in_bind in H. destruct H as [H|(n & _ & H)].
  - exfalso.
    destruct (normalize_cases w (Payload.url (Body.payload body))
                (Payload.referrer (Body.payload body))) as [(n & N)|N];
      rewrite N in H; simpl in H; contradiction.
  - apply in_await in H. eauto.
Qed.

Lemma in_collect_identify body sessionId c :
  In c (snd (collect_identify w body sessionId)) ->
  JS.eqb (Body.type body) (CollectionType.identify (COLLECTION_TYPE w))
    = true /\
  exists data,
    Payload.data (Body.payload body) = Some data /\
    c = CallSaveSessionData
          {| SessionData.websiteId := Payload.website (Body.payload body);
             SessionData.sessionId := sessionId;
             SessionData.sessionData := data |}.
Proof.
  unfold collect_identify.
  destruct (JS.eqb (Body.type body)
              (CollectionType.identify (COLLECTION_TYPE w)));
    simpl; [|contradiction].
  destruct (Payload.data (Body.payload body)) as [data|]; simpl;
    [|contradiction].
  intro H. apply in_await in H. split; [reflexivity|]. eauto.
Qed.

(** Without a data payload the identify branch returns the bad
    request and stores nothing. *)
Lemma collect_identify_no_data body sessionId :
  JS.eqb (Body.type body) (CollectionType.identify (COLLECTION_TYPE w))
    = true ->
  Payload.data (Body.payload body) = None ->
  collect_identify w body sessionId
    = (Return (badRequest (js "Data required.")), []).
Proof.
  intros T D. unfold collect_identify. rewrite T, D. reflexivity.
Qed.

Lemma collect_event_skipped body info sessionId visitId :
  JS.eqb (Body.type body) (CollectionType.event (COLLECTION_TYPE w))
    = false ->
  collect_event w body info sessionId visitId = ret tt.
Proof. intro T. unfold collect_event. rewrite T. reflexivity. Qed.

(** The run from the visit info on: the clock is read, then the visit
    is resolved and the collection runs. *)
Lemma visit_and_collect_eq cache body info sessionId :
  let v := visit_info w cache sessionId (getTime w / 1000) in
  visit_and_collect w cache body info sessionId
  = (fst (collect w body info sessionId (fst v) (snd v)),
     CallGetTime :: snd (collect w body info sessionId (fst v) (snd v))).
Proof.
  cbv zeta. unfold visit_and_collect, read_now.
  rewrite bind_assoc. unfold call.
  rewrite bind_next with (a := getTime w) by reflexivity.
  rewrite bind_ret_l. cbn [snd app].
  destruct (visit_info w cache sessionId (getTime w / 1000)) as [visitId iat].
  reflexivity.
Qed.

(** The calls of the collection: at most one [saveEvent], at most one
    [saveSessionData], and the token. *)
Lemma in_collect body info sessionId visitId iat c :
  In c (snd (collect w body info sessionId visitId iat)) ->
  (exists n, c = CallSaveEvent
                   (new_event (Body.payload body) info sessionId visitId n)) \/
  (exists data,
     Payload.data (Body.payload body) = Some data /\
     c = CallSaveSessionData
           {| SessionData.websiteId := Payload.website (Body.payload body);
              SessionData.sessionId := sessionId;
              SessionData.sessionData := data |}) \/
  c = CallCreateToken
        (new_claims (Body.payload body) sessionId visitId iat) (secret w).
Proof.
  unfold collect. intro H.
  apply in_bind in H. destruct H as [H|(_ & _ & H)].
  { left. apply in_collect_event in H. tauto. }
  apply in_bind in H. destruct H as [H|(_ & _ & H)].
  { right. left. apply in_collect_identify in H. tauto. }
  apply in_bind in H. destruct H as [H|(token & _ & H)].
  - right. right. unfold call in H. simpl in H. destruct H as [H|[]]. auto.
  - simpl in H. contradiction.
Qed.

(** When the token is created it is the one in the response. *)
Lemma collect_token body info sessionId visitId iat claims key :
  In (CallCreateToken claims key)
     (snd (collect w body info sessionId visitId iat)) ->
  fst (collect w body info sessionId visitId iat)
    = Next (json (JObj [(js "cache", JStr (createToken w claims key))])).
Proof.
  unfold collect. intro H.
  apply in_bind in H. destruct H as [H|([] & E & H)].
  { apply in_collect_event in H. destruct H as (_ & n & H). discriminate. }
  rewrite (bind_next _ _ _ E). cbn [fst].
  apply in_bind in H. destruct H as [H|([] & I & H)].
  { apply in_collect_identify in H. destruct H as (_ & d & _ & H).
    discriminate. }
  rewrite (bind_next _ _ _ I). cbn [fst].
  apply in_bind in H. destruct H as [H|(token & _ & H)].
  - unfold call in H. simpl in H. destruct H as [H|[]].
    injection H as <- <-. reflexivity.
  - simpl in H. contradiction.
Qed.

(** The calls from the visit info on. *)
Lemma in_visit_and_collect cache body info sessionId c :
  In c (snd (visit_and_collect w cache body info sessionId)) ->
  let v := visit_info w cache sessionId (getTime w / 1000) in
  c = CallGetTime \/
  (exists n, c = CallSaveEvent
                   (new_event (Body.payload body) info sessionId (fst v) n)) \/
  (exists data,
     Payload.data (Body.payload body) = Some data /\
     c = CallSaveSessionData
           {| SessionData.websiteId := Payload.website (Body.payload body);
              SessionData.sessionId := sessionId;
              SessionData.sessionData := data |}) \/
  c = CallCreateToken
        (new_claims (Body.payload body) sessionId (fst v) (snd v))
        (secret w).
Proof.
  rewrite visit_and_collect_eq. cbn [snd]. cbv zeta.
  intros [H|H]; [auto|]. right. apply in_collect. exact H.
Qed.

Lemma visit_and_collect_token cache body info sessionId claims key :
  In (CallCreateToken claims key)
     (snd (visit_and_collect w cache body info sessionId)) ->
  fst (visit_and_collect w cache body info sessionId)
    = Next (json (JObj [(js "cache", JStr (createToken w claims key))])).
Proof.
  rewrite visit_and_collect_eq. cbn [fst snd].
  intros [H|H]; [discriminate|]. apply collect_token. exact H.
Qed.

(** Visit resolution starts by reading the clock. *)
Lemma visit_and_collect_reads_clock cache body info sessionId :
  In CallGetTime (snd (visit_and_collect w cache body info sessionId)).
Proof. rewrite visit_and_collect_eq. left. reflexivity. Qed.

(** An identity beacon without data: the clock is read, nothing is
    stored, and the bad request is returned. *)
Lemma visit_and_collect_no_data cache body info sessionId :
  JS.eqb (Body.type body) (CollectionType.event (COLLECTION_TYPE w))
    = false ->
  JS.eqb (Body.type body) (CollectionType.identify (COLLECTION_TYPE w))
    = true ->
  Payload.data (Body.payload body) = None ->
  visit_and_collect w cache body info sessionId
    = (Return (badRequest (js "Data required.")), [CallGetTime]).
Proof.
  intros E I D. rewrite visit_and_collect_eq. unfold collect.
  rewrite (collect_event_skipped _ _ _ _ E).
  rewrite bind_ret_l.
  rewrite (collect_identify_no_data _ _ I D).
  reflexivity.
Qed.

(** The calls of a client that passed the check. *)
Lemma in_session_and_collect cache body info c :
  In c (snd (session_and_collect w cache body info)) ->
  let sessionId := derive_sessionId w (Body.payload body) info in
  In c (snd (find_session w cache (Body.payload body) info sessionId)) \/
  (exists u, fst (find_session w cache (Body.payload body) info sessionId)
             = Next u) /\
  In c (snd (visit_and_collect w cache body info sessionId)).
Proof.
  unfold session_and_collect. intro H. apply in_bind in H.
  destruct H as [H|(u & F & H)]; [left; exact H|].
  right. split; [exists u; exact F | exact H].
Qed.

End SessionAndCollect.

(* ================================================================== *)
(** * The handler as a whole *)
(* ================================================================== *)

Section Runs.

Variable w : World.

Lemma POST_phases_eq request : POST w request = complete (POST_phases w request).
Proof. unfold POST. rewrite POST_body_phases. reflexivity. Qed.

(** Where a call of a run comes from. *)
Lemma in_POST request c :
  In c (snd (POST w request)) ->
  is_prelude_call w request c \/
  exists body cache,
    fst (prelude w request) = Next (body, cache) /\
    (In c (snd (client_check w request (Body.payload body))) \/
     exists info,
       fst (client_check w request (Body.payload body)) = Next info /\
       In c (snd (session_and_collect w cache body info))).
Proof.
  rewrite POST_phases_eq, snd_complete. unfold POST_phases. intro H.
  apply in_bind in H. destruct H as [H|([body cache] & P & H)].
  { left. apply in_prelude. exact H. }
  right. exists body, cache. split; [exact P|]. cbn [fst snd] in H.
  apply in_bind in H. destruct H as [H|(info & G & H)]; [left; exact H|].
  right. exists info. split; [exact G | exact H].
Qed.

(** A run whose prelude fell through. *)
Lemma POST_after_prelude request body cache :
  fst (prelude w request) = Next (body, cache) ->
  let rest :=
    info <- client_check w request (Body.payload body);;
    session_and_collect w cache body info in
  POST w request = (fst (complete rest), snd (prelude w request) ++ snd rest).
Proof.
  intro P. cbv zeta. rewrite POST_phases_eq. unfold POST_phases.
  rewrite (complete_bind_next _ _ _ P). reflexivity.
Qed.

(** A run whose client passed the check. *)
Lemma POST_after_check request body cache info :
  fst (prelude w request) = Next (body, cache) ->
  fst (client_check w request (Body.payload body)) = Next info ->
  let rest := session_and_collect w cache body info in
  POST w request =
    (fst (complete rest),
     snd (prelude w request)
     ++ [CallGetClientInfo request (Body.payload body);
         CallHasBlockedIp (ClientInfo.ip info)]
     ++ snd rest).
Proof.
  intros P G. cbv zeta. rewrite (POST_after_prelude _ _ _ P).
  destruct (client_check_falls_through _ _ _ _ G) as (_ & _ & T).
  rewrite (complete_bind_next _ _ _ G), (bind_next _ _ _ G), T. reflexivity.
Qed.

Lemma prelude_call_not_write request c :
  is_prelude_call w request c -> is_write c = false.
Proof. intros [->|[(h & ->)|(i & ->)]]; reflexivity. Qed.

(** C7: a request whose user agent is classified as a bot, with
    DISABLE_BOT_CHECK unset, gets the response [{ beep: 'boop' }] and
    the handler makes no call at all: none to client-info resolution,
    the block list or any store. *)
Theorem bot_short_circuit (request : Request.t) :
  DISABLE_BOT_CHECK w = None ->
  isbot w (Request.user_agent request) = true ->
  POST w request
    = (Responded (json (JObj [(js "beep", JStr (js "boop"))])), []).
Proof.
  intros D B. unfold POST, POST_body, bot_check. rewrite D, B. reflexivity.
Qed.

(** C8: when the block-list check is reached with an IP that is on the
    list, the response is the forbidden one, the check is the last call
    of the run, and no call of the run is a store write: session
    creation, event persistence and identity persistence are never
    reached. *)
Theorem blocked_ip_forbidden (request : Request.t) (ip : option JS.str) :
  In (CallHasBlockedIp ip) (snd (POST w request)) ->
  hasBlockedIp w ip = true ->
  fst (POST w request) = Responded forbidden /\
  (exists t, snd (POST w request) = t ++ [CallHasBlockedIp ip]) /\
  (forall c, In c (snd (POST w request)) -> is_write c = false).
Proof.
  intros H B. destruct (in_POST _ _ H) as [P|(body & cache & P & [G|G])].
  - destruct P as [P|[(h & P)|(i & P)]]; discriminate.
  - apply in_client_check in G. destruct G as [G|(info & I & G)];
      [discriminate|].
    injection G as ->.
    pose proof (client_check_blocked _ _ _ _ I B) as E.
    rewrite (POST_after_prelude _ _ _ P).
    rewrite bind_return with (r := forbidden) by (rewrite E; reflexivity).
    rewrite E. cbn [fst snd complete]. split; [reflexivity|]. split.
    + exists (snd (prelude w request)
              ++ [CallGetClientInfo request (Body.payload body)]).
      rewrite <- app_assoc. reflexivity.
    + intros c Hc. apply in_app_or in Hc. destruct Hc as [Hc|Hc].
      * apply (prelude_call_not_write request).
        apply in_prelude. exact Hc.
      * destruct Hc as [<-|[<-|[]]]; reflexivity.
  - destruct G as (info & G & S). exfalso.
    apply in_session_and_collect in S. cbv zeta in S.
    destruct S as [S|[_ S]].
    + apply in_find_session in S. destruct S; discriminate.
    + apply in_visit_and_collect in S. cbv zeta in S.
      destruct S as [S|[(n & S)|[(d & _ & S)|S]]]; discriminate.
Qed.

End Runs.

Lemma bot_short_circuit_witness :
  DISABLE_BOT_CHECK Sample.deployment = None /\
  isbot Sample.deployment (Request.user_agent Sample.crawler_request) = true /\
  POST Sample.deployment Sample.crawler_request
    = (Responded (json (JObj [(js "beep", JStr (js "boop"))])), []).
Proof.
  assert (D : DISABLE_BOT_CHECK Sample.deployment = None) by reflexivity.
  assert (B : isbot Sample.deployment
                (Request.user_agent Sample.crawler_request) = true)
    by reflexivity.
  split; [exact D|]. split; [exact B|].
  exact (bot_short_circuit Sample.deployment Sample.crawler_request D B).
Defined.

Lemma blocked_ip_forbidden_witness :
  In (CallHasBlockedIp (Some (js "203.0.113.7")))
     (snd (POST Sample.deployment_blocked Sample.request)) /\
  hasBlockedIp Sample.deployment_blocked (Some (js "203.0.113.7")) = true /\
  fst (POST Sample.deployment_blocked Sample.request) = Responded forbidden /\
  (exists t, snd (POST Sample.deployment_blocked Sample.request)
             = t ++ [CallHasBlockedIp (Some (js "203.0.113.7"))]) /\
  (forall c, In c (snd (POST Sample.deployment_blocked Sample.request)) ->
             is_write c = false).
Proof.
  assert (H : In (CallHasBlockedIp (Some (js "203.0.113.7")))
                 (snd (POST Sample.deployment_blocked Sample.request))).
  { vm_compute. do 3 right. left. reflexivity. }
  assert (B : hasBlockedIp Sample.deployment_blocked
                (Some (js "203.0.113.7")) = true) by reflexivity.
  split; [exact H|]. split; [exact B|].
  exact (blocked_ip_forbidden Sample.deployment_blocked Sample.request
           (Some (js "203.0.113.7")) H B).
Defined.

(* ================================================================== *)
(** * Session creation *)
(* ================================================================== *)

Section SessionCreation.

Variable w : World.

(** What [createSession] does has no part in which calls the session
    step makes. *)
Lemma on_create_error_calls e : snd (on_create_error w e) = [].
Proof.
  unfold on_create_error.
  destruct (negb (JS.includes (js "unique constraint")
                    (toLowerCase w (Error.message e)))); reflexivity.
Qed.

Lemma create_calls f s :
  snd (try_catch (await (CallCreateSession s) (f s)) (on_create_error w))
  = [CallCreateSession s].
Proof.
  unfold try_catch. destruct (f s) as [u|e]; simpl; [reflexivity|].
  rewrite on_create_error_calls. reflexivity.
Qed.

Lemma find_session_calls_with_createSession f cache payload info sessionId :
  snd (find_session (with_createSession w f) cache payload info sessionId)
  = snd (find_session w cache payload info sessionId).
Proof.
  unfold find_session.
  destruct (negb (JS.truthy (cache_sessionId cache))); [|reflexivity].
  cbn [with_createSession fetchSession clickhouse_enabled createSession].
  apply snd_bind_ext. intros [s|] _; [reflexivity|].
  destruct (negb (clickhouse_enabled w)); [|reflexivity].
  change (on_create_error (with_createSession w f))
    with (on_create_error w).
  rewrite (create_calls f), (create_calls (createSession w)). reflexivity.
Qed.

(** C1: for a request that reaches session creation, if
    [createSession] rejects with an error whose lower-cased message
    contains [unique constraint], the run is the run of the same request
    in the world where [createSession] succeeds, and it goes on to the
    visit info (the clock is read); if it rejects with any other error,
    the response is the server error with the serialized error,
    [createSession] is the last call, and no call before it is a store
    write, so no event or identity record is written. *)
Theorem create_conflict_tolerated (request : Request.t) (s : Session.t)
    (e : Error.t) :
  In (CallCreateSession s) (snd (POST w request)) ->
  createSession w s = Rejects e ->
  (JS.includes (js "unique constraint") (toLowerCase w (Error.message e))
     = true ->
   POST w request
     = POST (with_createSession w (fun _ => Resolves tt)) request /\
   In CallGetTime (snd (POST w request))) /\
  (JS.includes (js "unique constraint") (toLowerCase w (Error.message e))
     = false ->
   fst (POST w request) = Responded (serverError (serializeError w e)) /\
   exists t, snd (POST w request) = t ++ [CallCreateSession s] /\
             forall c, In c t -> is_write c = false).
Proof.
  intros H R.
  destruct (in_POST _ _ _ H) as [P|(body & cache & P & [G|G])].
  { destruct P as [P|[(h & P)|(i & P)]]; discriminate. }
  { apply in_client_check in G. destruct G as [G|(info & _ & G)];
      discriminate. }
  destruct G as (info & G & S).
  apply in_session_and_collect in S. cbv zeta in S.
  destruct S as [S|[_ S]].
  2:{ exfalso. apply in_visit_and_collect in S. cbv zeta in S.
      destruct S as [S|[(n & S)|[(d & _ & S)|S]]]; discriminate. }
  set (sessionId := derive_sessionId w (Body.payload body) info) in *.
  destruct (find_session_creates _ _ _ _ _ _ S) as (Es & T & F).
  rewrite R in F.
  pose proof (POST_after_check _ _ _ _ _ P G) as E. cbv zeta in E.
  unfold session_and_collect in E. fold sessionId in E.
  split; intro I; rewrite I in F.
  - (* tolerated *)
    set (w' := with_createSession w (fun _ => Resolves tt)).
    assert (S' : In (CallCreateSession s)
                    (snd (find_session w' cache (Body.payload body) info
                            sessionId))).
    { unfold w'. rewrite find_session_calls_with_createSession. exact S. }
    destruct (find_session_creates _ _ _ _ _ _ S') as (_ & T' & F').
    cbn [w' with_createSession createSession] in F'.
    pose proof (POST_after_check w' request _ _ _ P G) as E'. cbv zeta in E'.
    unfold session_and_collect in E'.
    change (derive_sessionId w' (Body.payload body) info) with sessionId in E'.
    rewrite E, E'.
    rewrite (complete_bind_next _ _ _ F), (complete_bind_next _ _ _ F').
    rewrite (bind_next _ _ _ F), (bind_next _ _ _ F'), T, T'.
    split; [reflexivity|].
    cbn [snd]. apply in_or_app. right. apply in_or_app. right.
    apply in_or_app. right. apply visit_and_collect_reads_clock.
  - (* fatal *)
    rewrite E.
    rewrite (bind_return _ _ _ F), T. cbn [fst snd complete].
    split; [reflexivity|].
    exists (snd (prelude w request)
            ++ [CallGetClientInfo request (Body.payload body);
                CallHasBlockedIp (ClientInfo.ip info);
                CallFetchSession (Payload.website (Body.payload body))
                                 sessionId]).
    split.
    + rewrite <- app_assoc. reflexivity.
    + intros c Hc. apply in_app_or in Hc. destruct Hc as [Hc|Hc].
      * apply (prelude_call_not_write w request).
        apply in_prelude. exact Hc.
      * destruct Hc as [<-|[<-|[<-|[]]]]; reflexivity.
Qed.

End SessionCreation.

Lemma create_conflict_tolerated_witness :
  (In (CallCreateSession Sample.session_row)
      (snd (POST (Sample.deployment_create_fails
                    (Error.message Sample.conflict)) Sample.request)) /\
   createSession (Sample.deployment_create_fails
                    (Error.message Sample.conflict)) Sample.session_row
     = Rejects Sample.conflict /\
   POST (Sample.deployment_create_fails (Error.message Sample.conflict))
        Sample.request
     = POST (with_createSession
               (Sample.deployment_create_fails
                  (Error.message Sample.conflict))
               (fun _ => Resolves tt))
            Sample.request) /\
  (In (CallCreateSession Sample.session_row)
      (snd (POST (Sample.deployment_create_fails
                    (Error.message Sample.outage)) Sample.request)) /\
   createSession (Sample.deployment_create_fails
                    (Error.message Sample.outage)) Sample.session_row
     = Rejects Sample.outage /\
   fst (POST (Sample.deployment_create_fails (Error.message Sample.outage))
             Sample.request)
     = Responded
         (serverError
            (serializeError
               (Sample.deployment_create_fails (Error.message Sample.outage))
               Sample.outage))).
Proof.
  split.
  - assert (H : In (CallCreateSession Sample.session_row)
                   (snd (POST (Sample.deployment_create_fails
                                 (Error.message Sample.conflict))
                              Sample.request))).
    { vm_compute. do 5 right. left. reflexivity. }
    assert (R : createSession
                  (Sample.deployment_create_fails
                     (Error.message Sample.conflict)) Sample.session_row
                = Rejects Sample.conflict) by reflexivity.
    split; [exact H|]. split; [exact R|].
    destruct (create_conflict_tolerated
                (Sample.deployment_create_fails
                   (Error.message Sample.conflict))
                Sample.request Sample.session_row Sample.conflict H R)
      as [T _].
    destruct (T eq_refl) as [E _]. exact E.
  - assert (H : In (CallCreateSession Sample.session_row)
                   (snd (POST (Sample.deployment_create_fails
                                 (Error.message Sample.outage))
                              Sample.request))).
    { vm_compute. do 5 right. left. reflexivity. }
    assert (R : createSession
                  (Sample.deployment_create_fails
                     (Error.message Sample.outage)) Sample.session_row
                = Rejects Sample.outage) by reflexivity.
    split; [exact H|]. split; [exact R|].
    destruct (create_conflict_tolerated
                (Sample.deployment_create_fails
                   (Error.message Sample.outage))
                Sample.request Sample.session_row Sample.outage H R)
      as [_ F].
    destruct (F eq_refl) as [E _]. exact E.
Defined.

(* ================================================================== *)
(** * The ids that are persisted and issued *)
(* ================================================================== *)

Section Ids.

Variable w : World.

(** A call from the session step on comes from a request that was
    parsed and whose client info was resolved. *)
Lemma in_POST_after_check request c :
  In c (snd (POST w request)) ->
  is_write c = true \/ (exists claims key, c = CallCreateToken claims key) ->
  exists body cache info,
    parseRequest w request = Resolves (ParsedBody body) /\
    getClientInfo w request (Body.payload body) = Resolves info /\
    fst (prelude w request) = Next (body, cache) /\
    fst (client_check w request (Body.payload body)) = Next info /\
    In c (snd (session_and_collect w cache body info)).
Proof.
  intros H K.
  destruct (in_POST _ _ _ H) as [P|(body & cache & P & [G|G])].
  - exfalso. destruct K as [K|(cl & k & ->)].
    + rewrite (prelude_call_not_write _ _ _ P) in K. discriminate.
    + destruct P as [P|[(h & P)|(i & P)]]; discriminate.
  - exfalso. apply in_client_check in G.
    destruct G as [->|(info & _ & ->)]; destruct K as [K|(cl & k & K)];
      discriminate.
  - destruct G as (info & G & S). exists body, cache, info.
    destruct (prelude_falls_through _ _ _ _ P) as [B _].
    destruct (client_check_falls_through _ _ _ _ G) as (I & _ & _).
    auto.
Qed.

(** A decoded cache whose ids are replaced by others that are just as
    truthy: the steps that read the cache do the same. *)
Lemma find_website_same_but_ids c1 c2 websiteId :
  JS.truthy (Some (Cache.websiteId c1)) = JS.truthy (Some (Cache.websiteId c2)) ->
  find_website w (Some c1) websiteId = find_website w (Some c2) websiteId.
Proof.
  intro H. unfold find_website, cache_websiteId. cbn [option_map].
  rewrite H. reflexivity.
Qed.

Lemma find_session_same_but_ids c1 c2 payload info sessionId :
  JS.truthy (Some (Cache.sessionId c1)) = JS.truthy (Some (Cache.sessionId c2)) ->
  find_session w (Some c1) payload info sessionId
  = find_session w (Some c2) payload info sessionId.
Proof.
  intro H. unfold find_session, cache_sessionId. cbn [option_map].
  rewrite H. reflexivity.
Qed.

Lemma visit_and_collect_same_but_ids c1 c2 body info sessionId :
  Cache.visitId c1 = Cache.visitId c2 ->
  Cache.iat c1 = Cache.iat c2 ->
  visit_and_collect w (Some c1) body info sessionId
  = visit_and_collect w (Some c2) body info sessionId.
Proof.
  intros V I. unfold visit_and_collect, visit_info, cache_visitId, cache_iat.
  cbn [option_map]. rewrite V, I. reflexivity.
Qed.

Lemma resolve_and_collect_same_but_ids request c1 c2 body :
  same_but_ids (Resolves (Some c1)) (Resolves (Some c2)) ->
  resolve_and_collect w request (Some c1) body
  = resolve_and_collect w request (Some c2) body.
Proof.
  intros (V & I & _ & S). unfold resolve_and_collect.
  apply bind_ext. intros info _. apply bind_ext. intros _ _.
  rewrite (find_session_same_but_ids _ _ _ _ _ S).
  rewrite (visit_and_collect_same_but_ids _ _ _ _ _ V I). reflexivity.
Qed.

(** C10: every event row, session-data row and session row of a run,
    and the claims of the token it issues (the token of the response),
    carry the website id of the request's payload and the session id
    [uuid(websiteId, hostname, ip, userAgent)] derived on this request.
    The website id and session id of a decoded cache only decide which
    lookups are skipped: with a cache that differs only in the values
    of these two ids, truthy as before, the run is the same run. *)
Theorem ids_from_request (request : Request.t) :
  (forall e, In (CallSaveEvent e) (snd (POST w request)) ->
     request_ids w request (Event.websiteId e) (Event.sessionId e)) /\
  (forall d, In (CallSaveSessionData d) (snd (POST w request)) ->
     request_ids w request (SessionData.websiteId d)
                 (SessionData.sessionId d)) /\
  (forall s, In (CallCreateSession s) (snd (POST w request)) ->
     request_ids w request (Session.websiteId s) (Session.id s)) /\
  (forall claims key,
     In (CallCreateToken claims key) (snd (POST w request)) ->
     request_ids w request (Cache.websiteId claims) (Cache.sessionId claims)
     /\ fst (POST w request)
        = Responded
            (json (JObj [(js "cache", JStr (createToken w claims key))]))) /\
  (forall f,
     (forall token key, same_but_ids (parseToken w token key) (f token key)) ->
     POST (with_parseToken w f) request = POST w request).
Proof.
  assert (R : forall c,
            In c (snd (POST w request)) ->
            is_write c = true \/
            (exists claims key, c = CallCreateToken claims key) ->
            exists body cache info,
              request_ids w request (Payload.website (Body.payload body))
                (derive_sessionId w (Body.payload body) info) /\
              fst (prelude w request) = Next (body, cache) /\
              fst (client_check w request (Body.payload body)) = Next info /\
              let sessionId := derive_sessionId w (Body.payload body) info in
              (c = CallCreateSession
                     (new_session (Body.payload body) info sessionId) \/
               (exists u, fst (find_session w cache (Body.payload body) info
                                 sessionId) = Next u) /\
               In c (snd (visit_and_collect w cache body info sessionId)))).
  { intros c H K.
    destruct (in_POST_after_check _ _ H K)
      as (body & cache & info & B & I & P & G & S).
    exists body, cache, info.
    split; [exists body, info; auto|]. split; [exact P|]. split; [exact G|].
    apply in_session_and_collect in S. cbv zeta in *.
    destruct S as [S|S]; [|right; exact S].
    apply in_find_session in S. destruct S as [->|S]; [|left; exact S].
    destruct K as [K|(cl & k & K)]; discriminate. }
  repeat split.
  - intros e H.
    destruct (R _ H (or_introl eq_refl))
      as (body & cache & info & I & _ & _ & [E|[_ V]]); [discriminate|].
    apply in_visit_and_collect in V. cbv zeta in V.
    destruct V as [V|[(n & V)|[(d & _ & V)|V]]]; try discriminate.
    injection V as ->. exact I.
  - intros d H.
    destruct (R _ H (or_introl eq_refl))
      as (body & cache & info & I & _ & _ & [E|[_ V]]); [discriminate|].
    apply in_visit_and_collect in V. cbv zeta in V.
    destruct V as [V|[(n & V)|[(d' & _ & V)|V]]]; try discriminate.
    injection V as ->. exact I.
  - intros s H.
    destruct (R _ H (or_introl eq_refl))
      as (body & cache & info & I & _ & _ & [E|[_ V]]).
    + injection E as ->. exact I.
    + apply in_visit_and_collect in V. cbv zeta in V.
      destruct V as [V|[(n & V)|[(d' & _ & V)|V]]]; discriminate.
  - destruct (R _ H (or_intror (ex_intro _ claims (ex_intro _ key eq_refl))))
      as (body & cache & info & I & _ & _ & [E|[_ V]]); [discriminate|].
    apply in_visit_and_collect in V. cbv zeta in V.
    destruct V as [V|[(n & V)|[(d' & _ & V)|V]]]; try discriminate.
    injection V as -> _. exact I.
  - destruct (R _ H (or_intror (ex_intro _ claims (ex_intro _ key eq_refl))))
      as (body & cache & info & _ & P & G & [E|[(u & F) V]]); [discriminate|].
    rewrite (POST_after_check _ _ _ _ _ P G). cbn [fst].
    unfold session_and_collect. destruct u.
    rewrite (complete_bind_next _ _ _ F). cbn [fst].
    unfold complete. rewrite (visit_and_collect_token _ _ _ _ _ _ _ V).
    reflexivity.
  - intros f Hf. unfold POST. f_equal. unfold POST_body.
    apply bind_ext. intros _ _. apply bind_ext. intros body _.
    unfold cache_check. cbn [with_parseToken parseToken secret].
    destruct (Request.x_umami_cache request) as [[|x h]|];
      try reflexivity.
    specialize (Hf (x :: h) (secret w)).
    destruct (parseToken w (x :: h) (secret w)) as [[c1|]|e1];
      destruct (f (x :: h) (secret w)) as [[c2|]|e2];
      simpl in Hf; try contradiction; try reflexivity.
    + unfold await. rewrite !bind_next with (a := Some c2) by reflexivity.
      rewrite bind_next with (a := Some c1) by reflexivity.
      destruct Hf as (V & I & Wd & S).
      change (find_website (with_parseToken w f)) with (find_website w).
      change (resolve_and_collect (with_parseToken w f))
        with (resolve_and_collect w).
      rewrite (find_website_same_but_ids _ _ _ Wd).
      rewrite (resolve_and_collect_same_but_ids request c1 c2 body)
        by (repeat split; assumption).
      reflexivity.
    + subst e2. reflexivity.
Qed.

End Ids.

(* ================================================================== *)
(** * Identity beacons *)
(* ================================================================== *)

Section Identity.

Variable w : World.

(** Session data is stored only in the identify branch, and it is the
    data of the payload. *)
Lemma in_visit_and_collect_data cache body info sessionId d :
  In (CallSaveSessionData d)
     (snd (visit_and_collect w cache body info sessionId)) ->
  JS.eqb (Body.type body) (CollectionType.identify (COLLECTION_TYPE w))
    = true /\
  Payload.data (Body.payload body) = Some (SessionData.sessionData d).
Proof.
  rewrite visit_and_collect_eq. cbn [snd].
  intros [H|H]; [discriminate|]. unfold collect in H.
  apply in_bind in H. destruct H as [H|(_ & _ & H)].
  { apply in_collect_event in H. destruct H as (_ & n & H). discriminate. }
  apply in_bind in H. destruct H as [H|(_ & _ & H)].
  - apply in_collect_identify in H. destruct H as (T & data & D & H).
    injection H as ->. auto.
  - apply in_bind in H. destruct H as [H|(token & _ & H)].
    + unfold call in H. simpl in H. destruct H as [H|[]]. discriminate.
    + simpl in H. contradiction.
Qed.

(** C6, as amended: session data is stored only for a request whose
    type is [COLLECTION_TYPE.identify] and whose data payload is
    present, and what is stored is that payload (an empty object
    counts as present).  For a request of that type, not of the event
    type, whose data payload is absent, nothing is stored as session
    data, and once the request has come to the visit info the response
    is the bad request [Data required.]. *)
Theorem identity_requires_data (request : Request.t) (body : Body.t) :
  parseRequest w request = Resolves (ParsedBody body) ->
  (forall d, In (CallSaveSessionData d) (snd (POST w request)) ->
     JS.eqb (Body.type body) (CollectionType.identify (COLLECTION_TYPE w))
       = true /\
     Payload.data (Body.payload body) = Some (SessionData.sessionData d)) /\
  (Body.type body = CollectionType.identify (COLLECTION_TYPE w) ->
   Body.type body <> CollectionType.event (COLLECTION_TYPE w) ->
   Payload.data (Body.payload body) = None ->
   (forall d, ~ In (CallSaveSessionData d) (snd (POST w request))) /\
   (In CallGetTime (snd (POST w request)) ->
    fst (POST w request) = Responded (badRequest (js "Data required.")))).
Proof.
  intro B.
  assert (A : forall d, In (CallSaveSessionData d) (snd (POST w request)) ->
     JS.eqb (Body.type body) (CollectionType.identify (COLLECTION_TYPE w))
       = true /\
     Payload.data (Body.payload body) = Some (SessionData.sessionData d)).
  { intros d H.
    destruct (in_POST_after_check _ _ _ H (or_introl eq_refl))
      as (body' & cache & info & B' & _ & _ & _ & S).
    assert (body' = body) by congruence. subst body'.
    apply in_session_and_collect in S. cbv zeta in S.
    destruct S as [S|[_ S]].
    - apply in_find_session in S. destruct S; discriminate.
    - apply in_visit_and_collect_data in S. exact S. }
  split; [exact A|]. intros Ti Te D. split.
  - intros d H. destruct (A d H) as [_ E]. congruence.
  - intro H.
    destruct (in_POST _ _ _ H) as [P|(body' & cache & P & [G|G])].
    { destruct P as [P|[(h & P)|(i & P)]]; discriminate. }
    { apply in_client_check in G. destruct G as [G|(info & _ & G)];
        discriminate. }
    destruct G as (info & G & S).
    destruct (prelude_falls_through _ _ _ _ P) as [B' _].
    assert (body' = body) by congruence. subst body'.
    apply in_session_and_collect in S. cbv zeta in S.
    destruct S as [S|[(u & F) _]].
    { apply in_find_session in S. destruct S; discriminate. }
    rewrite (POST_after_check _ _ _ _ _ P G). cbn [fst].
    unfold session_and_collect.
    rewrite (complete_bind_next _ _ _ F). cbn [fst].
    assert (E : JS.eqb (Body.type body)
                  (CollectionType.event (COLLECTION_TYPE w)) = false).
    { destruct (JS.eqb (Body.type body)
                  (CollectionType.event (COLLECTION_TYPE w))) eqn:E;
        [|reflexivity].
      apply JSFacts.eqb_eq in E. contradiction. }
    assert (I : JS.eqb (Body.type body)
                  (CollectionType.identify (COLLECTION_TYPE w)) = true)
      by (apply JSFacts.eqb_eq; exact Ti).
    rewrite (visit_and_collect_no_data _ _ _ _ _ E I D). reflexivity.
Qed.

End Identity.

(** An identity beacon without data, in the deployment whose
    [COLLECTION_TYPE.identify] is the type of the beacon. *)
Lemma identity_requires_data_witness :
  parseRequest (Sample.deployment_identity (js "identity") None)
               Sample.request
    = Resolves (ParsedBody (Sample.identity_body None)) /\
  In CallGetTime
     (snd (POST (Sample.deployment_identity (js "identity") None)
                Sample.request)) /\
  fst (POST (Sample.deployment_identity (js "identity") None) Sample.request)
    = Responded (badRequest (js "Data required.")) /\
  (forall d,
     In (CallSaveSessionData d)
        (snd (POST (Sample.deployment_identity (js "identity")
                      (Some [(js "plan", JStr (js "pro"))]))
                   Sample.request)) ->
     Payload.data
       (Body.payload (Sample.identity_body
                        (Some [(js "plan", JStr (js "pro"))])))
     = Some (SessionData.sessionData d)).
Proof.
  assert (B : parseRequest (Sample.deployment_identity (js "identity") None)
                Sample.request
              = Resolves (ParsedBody (Sample.identity_body None)))
    by reflexivity.
  assert (H : In CallGetTime
                (snd (POST (Sample.deployment_identity (js "identity") None)
                           Sample.request))).
  { vm_compute. do 6 right. left. reflexivity. }
  split; [exact B|]. split; [exact H|]. split.
  - destruct (identity_requires_data
                (Sample.deployment_identity (js "identity") None)
                Sample.request (Sample.identity_body None) B) as [_ N].
    destruct (N eq_refl ltac:(discriminate) eq_refl) as [_ R].
    exact (R H).
  - intros d Hd.
    destruct (identity_requires_data
                (Sample.deployment_identity (js "identity")
                   (Some [(js "plan", JStr (js "pro"))]))
                Sample.request
                (Sample.identity_body (Some [(js "plan", JStr (js "pro"))]))
                eq_refl) as [A _].
    exact (proj2 (A d Hd)).
Defined.

(** C6 as stated fails at an identity beacon whose data payload is the
    empty object: the object is truthy, so no bad request is returned.
    Where [COLLECTION_TYPE.identify] is the beacon's type the empty
    object is stored as session data and the token is issued; where it
    is another string the identify branch is skipped and the token is
    issued all the same. *)
Lemma identity_requires_data_counterexample :
  (is_bad_request
     (fst (POST (Sample.deployment_identity (js "identity") (Some []))
                Sample.request)) = false /\
   existsb is_session_data_call
     (snd (POST (Sample.deployment_identity (js "identity") (Some []))
                Sample.request)) = true /\
   In (CallSaveSessionData
         {| SessionData.websiteId := Sample.website_id;
            SessionData.sessionId := Sample.session_id;
            SessionData.sessionData := [] |})
      (snd (POST (Sample.deployment_identity (js "identity") (Some []))
                 Sample.request))) /\
  (is_bad_request
     (fst (POST (Sample.deployment_identity (js "identify") (Some []))
                Sample.request)) = false /\
   existsb is_session_data_call
     (snd (POST (Sample.deployment_identity (js "identify") (Some []))
                Sample.request)) = false).
Proof.
  repeat split; try (vm_compute; reflexivity).
  vm_compute. do 7 right. left. reflexivity.
Qed.

(* ================================================================== *)
(** * The visit of a run *)
(* ================================================================== *)

(** The visit id and issue time of the token a run issues are those of
    [visit_info] for the decoded cache of the request, the session id
    of the token and the time of the request. *)
Lemma token_carries_visit_info w request claims key :
  In (CallCreateToken claims key) (snd (POST w request)) ->
  exists cache,
    fst (cache_check w request) = Next cache /\
    (Cache.visitId claims, Cache.iat claims)
      = visit_info w cache (Cache.sessionId claims) (getTime w / 1000).
Proof.
  intro H.
  destruct (in_POST_after_check _ _ _ H
              (or_intror (ex_intro _ claims (ex_intro _ key eq_refl))))
    as (body & cache & info & _ & _ & P & _ & S).
  exists cache. split; [apply (prelude_falls_through _ _ _ _ P)|].
  apply in_session_and_collect in S. cbv zeta in S.
  destruct S as [S|[_ S]].
  - apply in_find_session in S. destruct S; discriminate.
  - apply in_visit_and_collect in S. cbv zeta in S.
    destruct S as [S|[(n & S)|[(d & _ & S)|S]]]; try discriminate.
    injection S as -> _. cbn [new_claims Cache.visitId Cache.iat Cache.sessionId].
    destruct (visit_info w cache
                (derive_sessionId w (Body.payload body) info)
                (getTime w / 1000)); reflexivity.
Qed.

(** A pageview one minute after the token was issued, with a token
    that carries the ids of another website and session: both lookups
    are skipped, the visit is reused, and the event row and the new
    token carry the ids of this request. *)
Lemma returning_visitor_example :
  snd (POST (Sample.deployment_returning Sample.cache_foreign)
            Sample.request_with_cache)
  = [CallParseRequest Sample.request_with_cache;
     CallParseToken (js "eyJhbGciOi") (js "app-secret");
     CallGetClientInfo Sample.request_with_cache (Body.payload Sample.home);
     CallHasBlockedIp (Some (js "203.0.113.7"));
     CallGetTime;
     CallSaveEvent
       (new_event (Body.payload Sample.home)
          (Sample.client_info Sample.request_with_cache
             (Body.payload Sample.home))
          Sample.session_id Sample.visit_1
          {| urlPath := js "/"; urlQuery := None;
             referrerPath := Some (js "/page");
             referrerQuery := Some (js "ref=a");
             referrerDomain := js "example.com" |});
     CallCreateToken
       {| Cache.websiteId := Sample.website_id;
          Cache.sessionId := Sample.session_id;
          Cache.visitId := Sample.visit_1;
          Cache.iat := 1793613540 |}
       (js "app-secret")].
Proof. vm_compute. reflexivity. Qed.

(* ================================================================== *)
(** * Further properties: the normaliser *)
(* ================================================================== *)

Module SplitFacts.
Import JS.

Lemma before_first_free c s : ~ In c (before_first c s).
Proof.
  induction s as [|x s IH]; simpl; [tauto|].
  destruct (char_eqb x c) eqn:E; simpl; [tauto|].
  intros [H|H]; [|exact (IH H)].
  subst x. rewrite JSFacts.char_eqb_refl in E. discriminate.
Qed.

(** The replacement keeps the input or drops its final slash. *)
Lemma replace_group_slash_end_cases s :
  replace_group_slash_end s = s \/
  s = replace_group_slash_end s ++ [chr "/"].
Proof.
  induction s as [|x s IH]; [left; reflexivity|].
  assert (U : replace_group_slash_end (x :: s) =
              match match_group_slash_end (x :: s) with
              | Some g => g
              | None => x :: replace_group_slash_end s
              end) by reflexivity.
  rewrite U.
  destruct (match_group_slash_end (x :: s)) as [g|] eqn:M.
  - right. apply JSFacts.match_group_slash_end_sound in M. tauto.
  - destruct IH as [IH|IH].
    + left. rewrite IH. reflexivity.
    + right. rewrite IH at 1. reflexivity.
Qed.

Lemma in_replace_group_slash_end x s :
  In x (replace_group_slash_end s) -> In x s.
Proof.
  destruct (replace_group_slash_end_cases s) as [E|E].
  - rewrite E. auto.
  - intro H. rewrite E. apply in_or_app. left. exact H.
Qed.

End SplitFacts.

Section NormaliserInvariants.

Variable w : World.

(** X1: whatever the configuration, the trailing-slash step returns
    its input or its input without one final slash: it never removes
    anything else and never more than one character. *)
Theorem remove_trailing_slash_at_most_one (p : JS.str) :
  remove_trailing_slash w p = p \/
  p = remove_trailing_slash w p ++ [JS.chr "/"].
Proof.
  unfold remove_trailing_slash.
  destruct (JS.truthy (REMOVE_TRAILING_SLASH w)); [|left; reflexivity].
  apply SplitFacts.replace_group_slash_end_cases.
Qed.

Lemma in_remove_trailing_slash x p :
  In x (remove_trailing_slash w p) -> In x p.
Proof.
  unfold remove_trailing_slash.
  destruct (JS.truthy (REMOVE_TRAILING_SLASH w)); [|auto].
  apply SplitFacts.in_replace_group_slash_end.
Qed.

(** The url part of what [normalize] falls through with. *)
Lemma normalize_url_part url referrer n :
  fst (normalize w url referrer) = Next n ->
  urlPath n = remove_trailing_slash w
                (JS.or_else (fst (decode_and_split w url)) (js "/")) /\
  urlQuery n = snd (decode_and_split w url).
Proof.
  destruct (JS.test_anchored absolute_url_re
              (JS.to_string (fst (decode_and_split w referrer)))) eqn:T.
  - destruct (new_URL w (JS.to_string referrer)) as [u|] eqn:U.
    + rewrite (normalize_absolute w url referrer u T U). simpl.
      intro H. injection H as <-. auto.
    + rewrite (normalize_throws w url referrer T U). discriminate.
  - rewrite (normalize_relative w url referrer T). simpl.
    intro H. injection H as <-. auto.
Qed.

(** X2: whenever the normalisation falls through, the url path is not
    empty, and neither the url path nor the url query contains a [?]:
    the path ends before the first [?] and the query before the
    second. *)
Theorem url_parts_without_question_mark (url referrer : option JS.str)
    (n : Normalized) :
  fst (normalize w url referrer) = Next n ->
  urlPath n <> [] /\
  ~ In (JS.chr "?") (urlPath n) /\
  (forall q, urlQuery n = Some q -> ~ In (JS.chr "?") q).
Proof.
  intro H. destruct (normalize_url_part _ _ _ H) as [P Q].
  rewrite P, Q. clear H P Q. split; [|split].
  - apply remove_trailing_slash_nonempty.
    apply JSFacts.or_else_nonempty. discriminate.
  - intro H. apply in_remove_trailing_slash in H. revert H.
    destruct (safeDecodeURI w url) as [s|] eqn:D.
    + rewrite (decode_and_split_decoded w url s D). cbn [fst].
      destruct (JS.before_first (JS.chr "?") s) as [|x r] eqn:B.
      * vm_compute. intros [H|[]]. discriminate.
      * cbn [JS.or_else]. rewrite <- B. apply SplitFacts.before_first_free.
    + rewrite (decode_and_split_undefined w url D).
      vm_compute. intros [H|[]]. discriminate.
  - intros q.
    destruct (safeDecodeURI w url) as [s|] eqn:D.
    + rewrite (decode_and_split_decoded w url s D). cbn [snd].
      destruct (JS.after_first (JS.chr "?") s) as [r|]; simpl;
        [|discriminate].
      intro E. injection E as <-. apply SplitFacts.before_first_free.
    + rewrite (decode_and_split_undefined w url D). discriminate.
Qed.

(** X3: for a referrer of the absolute shape that the URL constructor
    accepts, the referrer path and query are the parsed URL's pathname
    and its search without the first character, and the referrer
    domain is the hostname without a leading [www.]; a hostname that
    does not contain [www.] is kept as it is. *)
Theorem absolute_referrer_parts (url referrer : option JS.str)
    (refUrl : URL.t) :
  JS.test_anchored absolute_url_re
    (JS.to_string (fst (decode_and_split w referrer))) = true ->
  new_URL w (JS.to_string referrer) = Some refUrl ->
  exists n,
    normalize w url referrer = (Next n, []) /\
    referrerPath n = Some (URL.pathname refUrl) /\
    referrerQuery n = Some (List.tl (URL.search refUrl)) /\
    (forall h, URL.hostname refUrl = js "www." ++ h -> referrerDomain n = h) /\
    (JS.includes (js "www.") (URL.hostname refUrl) = false ->
     referrerDomain n = URL.hostname refUrl).
Proof.
  intros T U. eexists. split; [apply normalize_absolute; eassumption|].
  simpl. repeat split.
  - intros h E. rewrite E. apply strip_www_leading.
  - apply strip_www_absent.
Qed.

End NormaliserInvariants.

Lemma url_parts_without_question_mark_witness :
  fst (normalize Sample.deployment_strip (Some (js "/docs/?a=1?b=2"))
                 (Some (js "/local")))
    = Next {| urlPath := js "/docs";
              urlQuery := Some (js "a=1");
              referrerPath := Some (js "/local");
              referrerQuery := None;
              referrerDomain := [] |} /\
  js "/docs" <> [] /\
  ~ In (JS.chr "?") (js "/docs") /\
  (forall q, Some (js "a=1") = Some q -> ~ In (JS.chr "?") q).
Proof.
  assert (H : fst (normalize Sample.deployment_strip
                     (Some (js "/docs/?a=1?b=2")) (Some (js "/local")))
              = Next {| urlPath := js "/docs";
                        urlQuery := Some (js "a=1");
                        referrerPath := Some (js "/local");
                        referrerQuery := None;
                        referrerDomain := [] |})
    by (vm_compute; reflexivity).
  split; [exact H|].
  exact (url_parts_without_question_mark Sample.deployment_strip _ _ _ H).
Defined.

Lemma absolute_referrer_parts_witness :
  JS.test_anchored absolute_url_re
    (JS.to_string
       (fst (decode_and_split Sample.deployment
               (Some (js "https://www.example.com/page?ref=a"))))) = true /\
  exists n,
    normalize Sample.deployment (Some (js "/"))
              (Some (js "https://www.example.com/page?ref=a"))
      = (Next n, []) /\
    referrerPath n = Some (js "/page") /\
    referrerQuery n = Some (js "ref=a") /\
    referrerDomain n = js "example.com".
Proof.
  assert (T : JS.test_anchored absolute_url_re
                (JS.to_string
                   (fst (decode_and_split Sample.deployment
                           (Some (js "https://www.example.com/page?ref=a")))))
              = true) by reflexivity.
  split; [exact T|].
  destruct (absolute_referrer_parts Sample.deployment (Some (js "/"))
              (Some (js "https://www.example.com/page?ref=a"))
              {| URL.pathname := js "/page"; URL.search := js "?ref=a";
                 URL.hostname := js "www.example.com" |} T eq_refl)
    as (n & N & P & Q & D & _).
  exists n. split; [exact N|]. split; [exact P|]. split; [exact Q|].
  apply D. reflexivity.
Defined.

(* ================================================================== *)
(** * Further properties: the prelude *)
(* ================================================================== *)

Lemma snd_bind {A B} (m : M A) (k : A -> M B) :
  snd (bind m k)
  = snd m ++ match fst m with
             | Next a => snd (k a)
             | _ => []
             end.
Proof.
  unfold bind. destruct (fst m); simpl; [reflexivity| |];
    rewrite app_nil_r; reflexivity.
Qed.

Lemma complete_bind_return {A} (m : M A) (k : A -> M Response) r :
  fst m = Return r -> complete (bind m k) = (Responded r, snd m).
Proof. intro H. rewrite (bind_return _ _ _ H). reflexivity. Qed.

Lemma complete_bind_throw {A} (m : M A) (k : A -> M Response) e :
  fst m = Throw e -> complete (bind m k) = (Threw e, snd m).
Proof. intro H. rewrite (bind_throw _ _ _ H). reflexivity. Qed.

Section Prelude.

Variable w : World.

Lemma bot_check_eq request :
  bot_check w request
  = if is_filtered_bot w request
    then respond (json (JObj [(js "beep", JStr (js "boop"))]))
    else ret tt.
Proof. reflexivity. Qed.

Lemma find_website_falls_through cache websiteId u :
  fst (find_website w cache websiteId) = Next u ->
  JS.truthy (cache_websiteId cache) = true \/
  exists website, fetchWebsite w websiteId = Resolves (Some website).
Proof.
  unfold find_website.
  destruct (JS.truthy (cache_websiteId cache)); [left; reflexivity|].
  intro H. right. apply bind_falls_through in H.
  destruct H as (ws & F & H). apply await_falls_through in F.
  destruct ws as [website|]; [eauto | discriminate].
Qed.

(** The lookup of a website that is not there. *)
Lemma find_website_missing cache websiteId :
  JS.truthy (cache_websiteId cache) = false ->
  fetchWebsite w websiteId = Resolves None ->
  find_website w cache websiteId
  = (Return (badRequest (js "Website not found.")),
     [CallFetchWebsite websiteId]).
Proof.
  intros T F. unfold find_website. rewrite T. simpl.
  unfold bind. rewrite F. reflexivity.
Qed.

(** No decoded cache: the header is missing or empty, or the token
    decodes to nothing. *)
Lemma cache_check_none request :
  fst (cache_check w request) = Next None ->
  JS.truthy (Request.x_umami_cache request) = false \/
  exists h, Request.x_umami_cache request = Some h /\
            parseToken w h (secret w) = Resolves None.
Proof.
  unfold cache_check.
  destruct (Request.x_umami_cache request) as [[|x h]|]; simpl; auto.
  intro H. apply await_falls_through in H. right. eauto.
Qed.

(** What is known once the prelude fell through. *)
Lemma prelude_falls_through_full request body cache :
  fst (prelude w request) = Next (body, cache) ->
  is_filtered_bot w request = false /\
  parseRequest w request = Resolves (ParsedBody body) /\
  fst (cache_check w request) = Next cache /\
  fst (find_website w cache (Payload.website (Body.payload body)))
    = Next tt /\
  snd (prelude w request)
    = CallParseRequest request
      :: snd (cache_check w request)
      ++ snd (find_website w cache (Payload.website (Body.payload body))).
Proof.
  unfold prelude. rewrite bot_check_eq.
  destruct (is_filtered_bot w request); [discriminate|].
  rewrite bind_ret_l. intro H.
  pose proof H as H0.
  apply bind_falls_through in H. destruct H as (body' & P & H).
  apply bind_falls_through in H. destruct H as (cache' & C & H).
  apply bind_falls_through in H. destruct H as ([] & F & H).
  simpl in H. injection H as -> ->.
  pose proof (parse_body_falls_through _ _ _ P) as B.
  split; [reflexivity|]. split; [exact B|]. split; [exact C|].
  split; [exact F|].
  rewrite snd_bind, P, snd_bind, C, snd_bind, F. simpl.
  rewrite app_nil_r.
  unfold parse_body. rewrite snd_bind, B. reflexivity.
Qed.

(** A call of a run is a call of its prelude, or the prelude fell
    through and it is a later call. *)
Lemma in_POST_prelude request c :
  In c (snd (POST w request)) ->
  In c (snd (prelude w request)) \/
  exists body cache,
    fst (prelude w request) = Next (body, cache) /\
    ~ is_prelude_call w request c.
Proof.
  rewrite POST_phases_eq, snd_complete. unfold POST_phases. intro H.
  apply in_bind in H. destruct H as [H|([body cache] & P & H)];
    [left; exact H|].
  right. exists body, cache. split; [exact P|]. cbn [fst snd] in H.
  intros [Q|[(h & Q)|(i & Q)]]; subst c;
    (apply in_bind in H; destruct H as [H|(info & G & H)];
     [ apply in_client_check in H; destruct H as [H|(i' & _ & H)];
       discriminate
     | apply in_session_and_collect in H; cbv zeta in H;
       destruct H as [H|[_ H]];
       [ apply in_find_session in H; destruct H; discriminate
       | apply in_visit_and_collect in H; cbv zeta in H;
         destruct H as [H|[(n & H)|[(d & _ & H)|H]]]; discriminate ] ]).
Qed.

(** A run whose prelude returns. *)
Lemma POST_prelude_returns request r :
  fst (prelude w request) = Return r ->
  POST w request = (Responded r, snd (prelude w request)).
Proof.
  intro H. rewrite POST_phases_eq. unfold POST_phases.
  apply complete_bind_return. exact H.
Qed.

(** X4: the first steps.  A request that the bot filter stops gets
    the neutral response and no call is made.  Any other request is
    parsed first: a body that [parseRequest] refuses gets the error
    response of [parseRequest] and nothing else is called; a rejection
    of [parseRequest] escapes the handler; otherwise the parse is the
    first call of the run. *)
Theorem first_steps (request : Request.t) :
  if is_filtered_bot w request then
    POST w request
      = (Responded (json (JObj [(js "beep", JStr (js "boop"))])), [])
  else
    match parseRequest w request with
    | Resolves (ParsedError error) =>
        POST w request = (Responded error, [CallParseRequest request])
    | Rejects e =>
        POST w request = (Threw e, [CallParseRequest request])
    | Resolves (ParsedBody _) =>
        exists t, snd (POST w request) = CallParseRequest request :: t
    end.
Proof.
  unfold POST, POST_body. rewrite bot_check_eq.
  destruct (is_filtered_bot w request); [reflexivity|].
  rewrite bind_ret_l. unfold parse_body.
  destruct (parseRequest w request) as [[body|error]|e] eqn:P;
    try reflexivity.
  rewrite snd_complete, snd_bind, snd_bind. simpl. eauto.
Qed.

(** X5: when the website lookup is made and finds nothing, the
    response is the bad request [Website not found.], the lookup is
    the last call of the run, and the run made no call beyond parsing,
    token decoding and that lookup: no client info, no block-list
    check, no store write. *)
Theorem unknown_website_rejected (request : Request.t) (websiteId : JS.str) :
  In (CallFetchWebsite websiteId) (snd (POST w request)) ->
  fetchWebsite w websiteId = Resolves None ->
  fst (POST w request) = Responded (badRequest (js "Website not found.")) /\
  (exists t, snd (POST w request) = t ++ [CallFetchWebsite websiteId]) /\
  (forall c, In c (snd (POST w request)) -> is_prelude_call w request c).
Proof.
  intros H F.
  destruct (in_POST_prelude _ _ H) as [P|(body & cache & _ & N)].
  2:{ exfalso. apply N. right. right. eauto. }
  assert (R : fst (prelude w request)
              = Return (badRequest (js "Website not found.")) /\
              exists t, snd (prelude w request)
                        = t ++ [CallFetchWebsite websiteId]).
  { revert P. unfold prelude. rewrite bot_check_eq.
    destruct (is_filtered_bot w request); [simpl; contradiction|].
    rewrite bind_ret_l. intro P.
    apply in_bind in P. destruct P as [P|(body & B & P)].
    { apply in_parse_body in P. discriminate. }
    apply in_bind in P. destruct P as [P|(cache & C & P)].
    { apply in_cache_check in P. destruct P as (h & _ & _ & P).
      discriminate. }
    apply in_bind in P. destruct P as [P|(u & _ & P)];
      [|simpl in P; contradiction].
    apply in_find_website in P. destruct P as [T P].
    injection P as ->.
    pose proof (find_website_missing _ _ T F) as E.
    rewrite (bind_next _ _ _ B), (bind_next _ _ _ C).
    rewrite bind_return
      with (r := badRequest (js "Website not found."))
      by (rewrite E; reflexivity).
    rewrite E. cbn [fst snd]. split; [reflexivity|].
    exists (snd (parse_body w request) ++ snd (cache_check w request)).
    rewrite <- app_assoc. reflexivity. }
  destruct R as [R T]. rewrite (POST_prelude_returns _ _ R).
  cbn [fst snd]. split; [reflexivity|]. split; [exact T|].
  intros c. apply in_prelude.
Qed.

(** X6: a call beyond the prelude (client info, the block-list check,
    any store call, the clock, the token) is made only for a request
    whose body was accepted and whose website is vouched for: the
    decoded cache carries a non-empty website id, or the website
    lookup found the website of the payload. *)
Theorem website_vouched_for (request : Request.t) (c : Call) :
  In c (snd (POST w request)) ->
  ~ is_prelude_call w request c ->
  exists body,
    parseRequest w request = Resolves (ParsedBody body) /\
    ((exists cache, fst (cache_check w request) = Next (Some cache) /\
                    Cache.websiteId cache <> []) \/
     (exists website,
        fetchWebsite w (Payload.website (Body.payload body))
          = Resolves (Some website))).
Proof.
  intros H N.
  destruct (in_POST_prelude _ _ H) as [P|(body & cache & P & _)].
  { exfalso. apply N. apply in_prelude. exact P. }
  destruct (prelude_falls_through_full _ _ _ P) as (_ & B & C & F & _).
  exists body. split; [exact B|].
  apply find_website_falls_through in F. destruct F as [F|F].
  - left. destruct cache as [cache|]; [|discriminate].
    exists cache. split; [exact C|].
    destruct (Cache.websiteId cache) eqn:E; [|discriminate].
    unfold cache_websiteId in F. simpl in F. rewrite E in F. discriminate.
  - right. exact F.
Qed.

End Prelude.

Lemma unknown_website_rejected_witness :
  In (CallFetchWebsite Sample.website_id)
     (snd (POST Sample.deployment_unknown_site Sample.request)) /\
  fetchWebsite Sample.deployment_unknown_site Sample.website_id
    = Resolves None /\
  POST Sample.deployment_unknown_site Sample.request
    = (Responded (badRequest (js "Website not found.")),
       [CallParseRequest Sample.request;
        CallFetchWebsite Sample.website_id]) /\
  fst (POST Sample.deployment_unknown_site Sample.request)
    = Responded (badRequest (js "Website not found.")).
Proof.
  assert (H : In (CallFetchWebsite Sample.website_id)
                 (snd (POST Sample.deployment_unknown_site Sample.request))).
  { vm_compute. right. left. reflexivity. }
  split; [exact H|]. split; [reflexivity|].
  split; [vm_compute; reflexivity|].
  exact (proj1 (unknown_website_rejected Sample.deployment_unknown_site
                  Sample.request Sample.website_id H eq_refl)).
Defined.

Lemma website_vouched_for_witness :
  In (CallGetClientInfo Sample.request (Body.payload Sample.home))
     (snd (POST Sample.deployment Sample.request)) /\
  exists body,
    parseRequest Sample.deployment Sample.request
      = Resolves (ParsedBody body) /\
    ((exists cache,
        fst (cache_check Sample.deployment Sample.request)
          = Next (Some cache) /\
        Cache.websiteId cache <> []) \/
     (exists website,
        fetchWebsite Sample.deployment (Payload.website (Body.payload body))
          = Resolves (Some website))).
Proof.
  assert (H : In (CallGetClientInfo Sample.request (Body.payload Sample.home))
                 (snd (POST Sample.deployment Sample.request))).
  { vm_compute. do 2 right. left. reflexivity. }
  split; [exact H|].
  apply (website_vouched_for Sample.deployment Sample.request _ H).
  intros [Q|[(h & Q)|(i & Q)]]; discriminate.
Defined.

(* ================================================================== *)
(** * Further properties: the order of the calls *)
(* ================================================================== *)

Section Order.

Lemma in_order_nil lo hi : in_order lo hi [].
Proof. split; [constructor | intros c []]. Qed.

Lemma in_order_single lo hi c :
  (lo <= rank c <= hi)%nat -> in_order lo hi [c].
Proof.
  intro H. split.
  - simpl. constructor; constructor.
  - intros c' [<-|[]]. exact H.
Qed.

Lemma in_order_app lo mid hi t1 t2 :
  in_order lo mid t1 -> in_order (S mid) hi t2 ->
  (lo <= S mid)%nat -> (mid <= hi)%nat ->
  in_order lo hi (t1 ++ t2).
Proof.
  intros [S1 R1] [S2 R2] L H. split.
  - rewrite map_app. revert S1 R1. induction t1 as [|c t1 IH]; intros S1 R1.
    + exact S2.
    + simpl in *. inversion S1 as [|x l S1' F1]; subst.
      constructor.
      * apply IH; [exact S1'|]. intros c' Hc. apply R1. right. exact Hc.
      * apply Forall_app. split; [exact F1|].
        apply Forall_forall. intros r Hr. apply in_map_iff in Hr.
        destruct Hr as (c' & <- & Hc).
        specialize (R1 c (or_introl eq_refl)). specialize (R2 c' Hc).
        unfold Nat.lt. lia.
  - intros c Hc. apply in_app_or in Hc. destruct Hc as [Hc|Hc].
    + specialize (R1 c Hc). lia.
    + specialize (R2 c Hc). lia.
Qed.

Lemma in_order_bind {A B} lo mid hi (m : M A) (k : A -> M B) :
  in_order lo mid (snd m) ->
  (forall a, in_order (S mid) hi (snd (k a))) ->
  (lo <= S mid)%nat -> (mid <= hi)%nat ->
  in_order lo hi (snd (bind m k)).
Proof.
  intros H1 H2 L H. rewrite snd_bind.
  apply in_order_app with (mid := mid); try assumption.
  destruct (fst m); [apply H2 | apply in_order_nil | apply in_order_nil].
Qed.

Lemma in_order_await {A} lo hi c (r : Result A) :
  (lo <= rank c <= hi)%nat -> in_order lo hi (snd (await c r)).
Proof. intro H. destruct r; apply in_order_single; exact H. Qed.

Variable w : World.

Lemma in_order_find_session cache payload info sessionId :
  in_order 5 6 (snd (find_session w cache payload info sessionId)).
Proof.
  unfold find_session.
  destruct (negb (JS.truthy (cache_sessionId cache)));
    [|apply in_order_nil].
  apply in_order_bind with (mid := 5%nat); try lia.
  - apply in_order_await. simpl. lia.
  - intros [s|]; [apply in_order_nil|].
    destruct (negb (clickhouse_enabled w)); [|apply in_order_nil].
    rewrite create_calls. apply in_order_single. simpl. lia.
Qed.

Lemma in_order_collect body info sessionId visitId iat :
  in_order 8 10 (snd (collect w body info sessionId visitId iat)).
Proof.
  unfold collect.
  apply in_order_bind with (mid := 8%nat); try lia.
  { unfold collect_event.
    destruct (JS.eqb _ _); [|apply in_order_nil].
    rewrite snd_bind.
    destruct (normalize_cases w (Payload.url (Body.payload body))
                (Payload.referrer (Body.payload body))) as [(n & N)|N];
      rewrite N; simpl; [|apply in_order_nil].
    apply in_order_await. simpl. lia. }
  intros _. apply in_order_bind with (mid := 9%nat); try lia.
  { unfold collect_identify.
    destruct (JS.eqb _ _); [|apply in_order_nil].
    destruct (Payload.data (Body.payload body)); [|apply in_order_nil].
    apply in_order_await. simpl. lia. }
  intros _. apply in_order_bind with (mid := 10%nat); try lia.
  - apply in_order_single. simpl. lia.
  - intros token. apply in_order_nil.
Qed.

(** X7: in every run the calls come in the order of the handler's
    text, each kind at most once: parseRequest, parseToken,
    fetchWebsite, getClientInfo, hasBlockedIp, fetchSession,
    createSession, the clock, saveEvent, saveSessionData, createToken.
    So a run creates at most one session, saves at most one event and
    at most one session-data record, issues at most one token, and
    never writes before the block-list check. *)
Theorem calls_in_order (request : Request.t) :
  StronglySorted Nat.lt (List.map rank (snd (POST w request))).
Proof.
  unfold POST. rewrite snd_complete.
  assert (H : in_order 0 10 (snd (POST_body w request))); [|apply H].
  unfold POST_body. rewrite bot_check_eq.
  destruct (is_filtered_bot w request); [apply in_order_nil|].
  rewrite bind_ret_l. apply in_order_bind with (mid := 0%nat); try lia.
  { unfold parse_body. apply in_order_bind with (mid := 0%nat); try lia.
    - apply in_order_await. simpl. lia.
    - intros [b|e]; apply in_order_nil. }
  intros body. apply in_order_bind with (mid := 1%nat); try lia.
  { unfold cache_check.
    destruct (Request.x_umami_cache request) as [[|x h]|];
      try apply in_order_nil.
    apply in_order_await. simpl. lia. }
  intros cache. apply in_order_bind with (mid := 2%nat); try lia.
  { unfold find_website.
    destruct (negb (JS.truthy (cache_websiteId cache)));
      [|apply in_order_nil].
    apply in_order_bind with (mid := 2%nat); try lia.
    - apply in_order_await. simpl. lia.
    - intros [ws|]; apply in_order_nil. }
  intros _. unfold resolve_and_collect.
  apply in_order_bind with (mid := 3%nat); try lia.
  { apply in_order_await. simpl. lia. }
  intros info. apply in_order_bind with (mid := 4%nat); try lia.
  { unfold ip_block. apply in_order_bind with (mid := 4%nat); try lia.
    - apply in_order_single. simpl. lia.
    - intros [|]; apply in_order_nil. }
  intros _. apply in_order_bind with (mid := 6%nat); try lia.
  { apply in_order_find_session. }
  intros _. rewrite visit_and_collect_eq. cbn [snd].
  change (CallGetTime :: ?t) with ([CallGetTime] ++ t).
  apply in_order_app with (mid := 7%nat); try lia.
  - apply in_order_single. simpl. lia.
  - apply in_order_collect.
Qed.

End Order.

(* ================================================================== *)
(** * Further properties: lookups, session creation, persistence *)
(* ================================================================== *)

Section Persistence.

Variable w : World.

(** ** The lookups *)

Lemma find_session_cached cache payload info sessionId :
  JS.truthy (cache_sessionId cache) = true ->
  find_session w cache payload info sessionId = ret tt.
Proof. intro T. unfold find_session. rewrite T. reflexivity. Qed.

(** When the session is created: no session id came with the cache,
    the lookup found no row, and the columnar store is off. *)
Lemma find_session_creates_when cache payload info sessionId s :
  In (CallCreateSession s)
     (snd (find_session w cache payload info sessionId)) ->
  JS.truthy (cache_sessionId cache) = false /\
  fetchSession w (Payload.website payload) sessionId = Resolves None /\
  clickhouse_enabled w = false.
Proof.
  unfold find_session.
  destruct (JS.truthy (cache_sessionId cache)); simpl; [contradiction|].
  rewrite snd_bind.
  destruct (fetchSession w (Payload.website payload) sessionId)
    as [[row|]|e]; simpl; try (intros [H|[]]; discriminate).
  destruct (clickhouse_enabled w); simpl; [intros [H|[]]; discriminate|].
  auto.
Qed.

Lemma in_prelude_fetch_website request websiteId :
  In (CallFetchWebsite websiteId) (snd (prelude w request)) ->
  exists cache,
    fst (cache_check w request) = Next cache /\
    JS.truthy (cache_websiteId cache) = false.
Proof.
  unfold prelude. intro P.
  apply in_bind in P. destruct P as [P|(u & _ & P)].
  { exfalso. exact (in_bot_check _ _ _ P). }
  apply in_bind in P. destruct P as [P|(body & B & P)].
  { apply in_parse_body in P. discriminate. }
  apply in_bind in P. destruct P as [P|(cache & C & P)].
  { apply in_cache_check in P. destruct P as (h & _ & _ & P).
    discriminate. }
  apply in_bind in P. destruct P as [P|(u' & _ & P)];
    [|simpl in P; contradiction].
  apply in_find_website in P. destruct P as [T _]. eauto.
Qed.

(** With a decoded cache the lookups of the ids it carries are not
    among the calls. *)
Lemma cache_skips_lookups_rank (request : Request.t) (cache : Cache.t) :
  fst (cache_check w request) = Next (Some cache) ->
  (Cache.websiteId cache <> [] ->
   forall c, In c (snd (POST w request)) -> rank c <> 2%nat) /\
  (Cache.sessionId cache <> [] ->
   forall c, In c (snd (POST w request)) ->
             rank c <> 5%nat /\ rank c <> 6%nat).
Proof.
  intro C. split.
  - intros Wn c H R.
    destruct (in_POST_prelude _ _ _ H) as [P|(body & cache' & _ & N)].
    + destruct c; try discriminate.
      apply in_prelude_fetch_website in P. destruct P as (cache' & C' & T).
      rewrite C in C'. injection C' as <-.
      unfold cache_websiteId in T. simpl in T.
      destruct (Cache.websiteId cache); [congruence | discriminate].
    + apply N. destruct c; try discriminate. right. right. eauto.
  - intros Sn c H.
    assert (K : rank c = 5%nat \/ rank c = 6%nat -> False);
      [|split; intro R; apply K; auto].
    intro R.
    destruct (in_POST _ _ _ H) as [P|(body & cache' & P & [G|G])].
    { destruct P as [-> |[(h & ->)|(i & ->)]]; simpl in R; lia. }
    { apply in_client_check in G.
      destruct G as [-> |(info & _ & ->)]; simpl in R; lia. }
    destruct G as (info & _ & S).
    destruct (prelude_falls_through _ _ _ _ P) as [_ C'].
    rewrite C in C'. injection C' as <-.
    apply in_session_and_collect in S. cbv zeta in S.
    destruct S as [S|[_ S]].
    + rewrite find_session_cached in S; [simpl in S; contradiction|].
      unfold cache_sessionId. simpl.
      destruct (Cache.sessionId cache); [congruence | reflexivity].
    + apply in_visit_and_collect in S. cbv zeta in S.
      destruct S as [-> |[(n & ->)|[(d & _ & ->)| ->]]]; simpl in R; lia.
Qed.

(** X8: a decoded cache short-circuits the lookups.  When the token
    decodes to a cache with a non-empty website id, the run never
    calls [fetchWebsite]; when the cache has a non-empty session id,
    the run never calls [fetchSession] or [createSession]. *)
Theorem cache_skips_lookups (request : Request.t) (cache : Cache.t) :
  fst (cache_check w request) = Next (Some cache) ->
  (Cache.websiteId cache <> [] ->
   forall websiteId, ~ In (CallFetchWebsite websiteId) (snd (POST w request)))
  /\
  (Cache.sessionId cache <> [] ->
   (forall websiteId sessionId,
      ~ In (CallFetchSession websiteId sessionId) (snd (POST w request))) /\
   (forall s, ~ In (CallCreateSession s) (snd (POST w request)))).
Proof.
  intro C. destruct (cache_skips_lookups_rank request cache C) as [A B].
  split.
  - intros Wn websiteId H. exact (A Wn _ H eq_refl).
  - intros Sn. split.
    + intros websiteId sessionId H. exact (proj1 (B Sn _ H) eq_refl).
    + intros s H. exact (proj2 (B Sn _ H) eq_refl).
Qed.

(** X9: a session is created only when the cache brought no session
    id, the session lookup for the ids of the row resolved to no row,
    and the columnar store is not enabled. *)
Theorem session_created_only_when_missing (request : Request.t)
    (s : Session.t) :
  In (CallCreateSession s) (snd (POST w request)) ->
  clickhouse_enabled w = false /\
  fetchSession w (Session.websiteId s) (Session.id s) = Resolves None /\
  (forall cache, fst (cache_check w request) = Next (Some cache) ->
                 Cache.sessionId cache = []).
Proof.
  intro H.
  destruct (in_POST_after_check _ _ _ H (or_introl eq_refl))
    as (body & cache & info & _ & _ & P & _ & S).
  apply in_session_and_collect in S. cbv zeta in S.
  destruct S as [S|[_ S]].
  2:{ apply in_visit_and_collect in S. cbv zeta in S.
      destruct S as [S|[(n & S)|[(d & _ & S)|S]]]; discriminate. }
  pose proof (in_find_session _ _ _ _ _ _ S) as E.
  destruct E as [E|E]; [discriminate|]. injection E as ->.
  destruct (find_session_creates_when _ _ _ _ _ S) as (T & F & K).
  split; [exact K|]. split; [exact F|].
  intros cache' C.
  destruct (prelude_falls_through _ _ _ _ P) as [_ C'].
  rewrite C in C'. injection C' as <-.
  unfold cache_sessionId in T. simpl in T.
  destruct (Cache.sessionId cache'); [reflexivity | discriminate].
Qed.

(** ** Persistence *)

(** When [saveEvent] is called it is the only call of the event
    branch, and the branch ends as the call does. *)
Lemma collect_event_saves body info sessionId visitId e :
  In (CallSaveEvent e) (snd (collect_event w body info sessionId visitId)) ->
  JS.eqb (Body.type body) (CollectionType.event (COLLECTION_TYPE w)) = true /\
  snd (collect_event w body info sessionId visitId) = [CallSaveEvent e] /\
  fst (collect_event w body info sessionId visitId)
    = match saveEvent w e with
      | Resolves _ => Next tt
      | Rejects x => Throw x
      end.
Proof.
  unfold collect_event.
  destruct (JS.eqb (Body.type body) (CollectionType.event (COLLECTION_TYPE w)));
    [|simpl; contradiction].
  destruct (normalize_cases w (Payload.url (Body.payload body))
              (Payload.referrer (Body.payload body))) as [(n & N)|N];
    rewrite N; [|simpl; contradiction].
  rewrite bind_next with (a := n) by reflexivity. cbn [fst snd app].
  intro H. apply in_await in H. injection H as ->.
  split; [reflexivity|].
  destruct (saveEvent w _) as [[]|x]; simpl; auto.
Qed.

Lemma collect_identify_saves body sessionId d :
  In (CallSaveSessionData d) (snd (collect_identify w body sessionId)) ->
  snd (collect_identify w body sessionId) = [CallSaveSessionData d] /\
  fst (collect_identify w body sessionId)
    = match saveSessionData w d with
      | Resolves _ => Next tt
      | Rejects x => Throw x
      end.
Proof.
  unfold collect_identify.
  destruct (JS.eqb (Body.type body)
              (CollectionType.identify (COLLECTION_TYPE w)));
    [|simpl; contradiction].
  destruct (Payload.data (Body.payload body)) as [data|];
    [|simpl; contradiction].
  intro H. apply in_await in H. injection H as ->.
  destruct (saveSessionData w _) as [[]|x]; simpl; auto.
Qed.

(** The event branch of a request of the event type falls through
    only after [saveEvent] resolved. *)
Lemma collect_event_falls_through body info sessionId visitId u :
  fst (collect_event w body info sessionId visitId) = Next u ->
  JS.eqb (Body.type body) (CollectionType.event (COLLECTION_TYPE w)) = true ->
  exists e,
    In (CallSaveEvent e)
       (snd (collect_event w body info sessionId visitId)) /\
    saveEvent w e = Resolves tt.
Proof.
  unfold collect_event. intros H T. rewrite T in *.
  apply bind_falls_through in H. destruct H as (n & N & H).
  apply await_falls_through in H. destruct u.
  exists (new_event (Body.payload body) info sessionId visitId n).
  split; [|exact H].
  rewrite snd_bind, N. apply in_or_app. right. rewrite H. left. reflexivity.
Qed.

Lemma collect_identify_falls_through body sessionId u :
  fst (collect_identify w body sessionId) = Next u ->
  JS.eqb (Body.type body) (CollectionType.identify (COLLECTION_TYPE w))
    = true ->
  exists d,
    In (CallSaveSessionData d) (snd (collect_identify w body sessionId)) /\
    saveSessionData w d = Resolves tt.
Proof.
  unfold collect_identify. intros H T. rewrite T in *.
  destruct (Payload.data (Body.payload body)) as [data|]; [|discriminate].
  apply await_falls_through in H. destruct u.
  eexists. split; [|exact H]. rewrite H. left. reflexivity.
Qed.

(** A call from the visit info on, with where it sits in the run. *)
Lemma in_POST_collect request c :
  In c (snd (POST w request)) ->
  (8 <= rank c)%nat ->
  exists body info sessionId visitId iat t,
    parseRequest w request = Resolves (ParsedBody body) /\
    In c (snd (collect w body info sessionId visitId iat)) /\
    POST w request
      = (fst (complete (collect w body info sessionId visitId iat)),
         t ++ snd (collect w body info sessionId visitId iat)).
Proof.
  intros H R.
  destruct (in_POST _ _ _ H) as [P|(body & cache & P & [G|G])].
  { destruct P as [-> |[(h & ->)|(i & ->)]]; simpl in R; lia. }
  { apply in_client_check in G.
    destruct G as [-> |(info & _ & ->)]; simpl in R; lia. }
  destruct G as (info & G & S).
  apply in_session_and_collect in S. cbv zeta in S.
  destruct S as [S|[(u & F) S]].
  { apply in_find_session in S. destruct S as [-> | ->]; simpl in R; lia. }
  rewrite visit_and_collect_eq in S. cbn [snd] in S.
  destruct S as [<-|S]; [simpl in R; lia|].
  destruct (prelude_falls_through _ _ _ _ P) as [B _].
  set (sessionId := derive_sessionId w (Body.payload body) info) in *.
  set (v := visit_info w cache sessionId (getTime w / 1000)) in *.
  exists body, info, sessionId, (fst v), (snd v).
  exists (snd (prelude w request)
          ++ [CallGetClientInfo request (Body.payload body);
              CallHasBlockedIp (ClientInfo.ip info)]
          ++ snd (find_session w cache (Body.payload body) info sessionId)
          ++ [CallGetTime]).
  split; [exact B|]. split; [exact S|].
  rewrite (POST_after_check _ _ _ _ _ P G). unfold session_and_collect.
  fold sessionId.
  rewrite (complete_bind_next _ _ _ F), (bind_next _ _ _ F).
  rewrite visit_and_collect_eq. fold v. cbn [fst snd].
  f_equal.
  - unfold complete. cbn [fst snd].
    destruct (fst (collect w body info sessionId (fst v) (snd v)));
      reflexivity.
  - rewrite <- !app_assoc. reflexivity.
Qed.

(** X10: where the two collection types are different strings, no run
    saves both an event and a session-data record. *)
Theorem never_both_records (request : Request.t) :
  CollectionType.event (COLLECTION_TYPE w)
    <> CollectionType.identify (COLLECTION_TYPE w) ->
  forall e d,
    In (CallSaveEvent e) (snd (POST w request)) ->
    In (CallSaveSessionData d) (snd (POST w request)) ->
    False.
Proof.
  intros D e d He Hd.
  destruct (in_POST_collect _ _ He ltac:(simpl; lia))
    as (body & info & sid & vid & iat & _ & B & Ce & _).
  destruct (in_POST_collect _ _ Hd ltac:(simpl; lia))
    as (body' & info' & sid' & vid' & iat' & _ & B' & Cd & _).
  assert (body' = body) by congruence. subst body'.
  unfold collect in Ce, Cd.
  apply in_bind in Ce. destruct Ce as [Ce|(u & _ & Ce)].
  2:{ apply in_bind in Ce. destruct Ce as [Ce|(u' & _ & Ce)].
      - apply in_collect_identify in Ce. destruct Ce as (_ & x & _ & Ce).
        discriminate.
      - apply in_bind in Ce. destruct Ce as [Ce|(tok & _ & Ce)];
          simpl in Ce; intuition discriminate. }
  apply in_collect_event in Ce. destruct Ce as [Te _].
  apply in_bind in Cd. destruct Cd as [Cd|(u & _ & Cd)].
  { apply in_collect_event in Cd. destruct Cd as (_ & n & Cd).
    discriminate. }
  apply in_bind in Cd. destruct Cd as [Cd|(u' & _ & Cd)].
  2:{ apply in_bind in Cd. destruct Cd as [Cd|(tok & _ & Cd)];
        simpl in Cd; intuition discriminate. }
  apply in_collect_identify in Cd. destruct Cd as [Ti _].
  apply JSFacts.eqb_eq in Te. apply JSFacts.eqb_eq in Ti. congruence.
Qed.

(** X11: a token is issued only after the record of the request was
    saved: for a request of the event type a [saveEvent] call of the
    run resolved, and for a request of the identify type a
    [saveSessionData] call of the run resolved. *)
Theorem token_only_after_persistence (request : Request.t)
    (claims : Cache.t) (key : JS.str) :
  In (CallCreateToken claims key) (snd (POST w request)) ->
  exists body,
    parseRequest w request = Resolves (ParsedBody body) /\
    (Body.type body = CollectionType.event (COLLECTION_TYPE w) ->
     exists e, In (CallSaveEvent e) (snd (POST w request)) /\
               saveEvent w e = Resolves tt) /\
    (Body.type body = CollectionType.identify (COLLECTION_TYPE w) ->
     exists d, In (CallSaveSessionData d) (snd (POST w request)) /\
               saveSessionData w d = Resolves tt).
Proof.
  intro H.
  destruct (in_POST_collect _ _ H ltac:(simpl; lia))
    as (body & info & sid & vid & iat & t & B & C & E).
  exists body. split; [exact B|].
  rewrite E. cbn [snd]. unfold collect in *.
  apply in_bind in C. destruct C as [C|(u & Fe & C)].
  { apply in_collect_event in C. destruct C as (_ & n & C). discriminate. }
  apply in_bind in C. destruct C as [C|(u' & Fi & C)].
  { apply in_collect_identify in C. destruct C as (_ & x & _ & C).
    discriminate. }
  split; intro T; apply JSFacts.eqb_eq in T.
  - destruct (collect_event_falls_through _ _ _ _ _ Fe T) as (e & Ie & Re).
    exists e. split; [|exact Re].
    apply in_or_app. right. apply in_bind_first. exact Ie.
  - destruct (collect_identify_falls_through _ _ _ Fi T) as (d & Id & Rd).
    exists d. split; [|exact Rd].
    apply in_or_app. right. rewrite (bind_next _ _ _ Fe). cbn [snd].
    apply in_or_app. right. apply in_bind_first. exact Id.
Qed.

(** X12: a rejection of [saveEvent] or of [saveSessionData] is not
    caught: it escapes the handler, the failed call is the last call
    of the run, and so no token is issued. *)
Theorem persistence_failure_escapes (request : Request.t) :
  (forall e x,
     In (CallSaveEvent e) (snd (POST w request)) ->
     saveEvent w e = Rejects x ->
     fst (POST w request) = Threw x /\
     exists t, snd (POST w request) = t ++ [CallSaveEvent e]) /\
  (forall d x,
     In (CallSaveSessionData d) (snd (POST w request)) ->
     saveSessionData w d = Rejects x ->
     fst (POST w request) = Threw x /\
     exists t, snd (POST w request) = t ++ [CallSaveSessionData d]).
Proof.
  split.
  - intros e x H R.
    destruct (in_POST_collect _ _ H ltac:(simpl; lia))
      as (body & info & sid & vid & iat & t & _ & C & E).
    rewrite E. clear E. unfold collect in *.
    apply in_bind in C. destruct C as [C|(u & _ & C)].
    2:{ apply in_bind in C. destruct C as [C|(u' & _ & C)].
        - apply in_collect_identify in C. destruct C as (_ & y & _ & C).
          discriminate.
        - apply in_bind in C. destruct C as [C|(tok & _ & C)];
            simpl in C; intuition discriminate. }
    destruct (collect_event_saves _ _ _ _ _ C) as (_ & T & F).
    rewrite R in F.
    rewrite (bind_throw _ _ _ F), T. cbn [fst snd complete].
    split; [reflexivity | eauto].
  - intros d x H R.
    destruct (in_POST_collect _ _ H ltac:(simpl; lia))
      as (body & info & sid & vid & iat & t & _ & C & E).
    rewrite E. clear E. unfold collect in *.
    apply in_bind in C. destruct C as [C|(u & Fe & C)].
    { apply in_collect_event in C. destruct C as (_ & n & C).
      discriminate. }
    rewrite (bind_next _ _ _ Fe).
    apply in_bind in C. destruct C as [C|(u' & _ & C)].
    2:{ apply in_bind in C. destruct C as [C|(tok & _ & C)];
          simpl in C; intuition discriminate. }
    destruct (collect_identify_saves _ _ _ C) as (T & F).
    rewrite R in F.
    rewrite (bind_throw _ _ _ F), T. cbn [fst snd complete].
    split; [reflexivity|].
    exists (t ++ snd (collect_event w body info sid vid)).
    rewrite <- app_assoc. reflexivity.
Qed.

End Persistence.

Lemma cache_skips_lookups_witness :
  fst (cache_check (Sample.deployment_returning Sample.cache_foreign)
                   Sample.request_with_cache)
    = Next (Some Sample.cache_foreign) /\
  (forall websiteId,
     ~ In (CallFetchWebsite websiteId)
          (snd (POST (Sample.deployment_returning Sample.cache_foreign)
                     Sample.request_with_cache))) /\
  (forall s,
     ~ In (CallCreateSession s)
          (snd (POST (Sample.deployment_returning Sample.cache_foreign)
                     Sample.request_with_cache))).
Proof.
  assert (C : fst (cache_check
                     (Sample.deployment_returning Sample.cache_foreign)
                     Sample.request_with_cache)
              = Next (Some Sample.cache_foreign)) by reflexivity.
  split; [exact C|].
  destruct (cache_skips_lookups
              (Sample.deployment_returning Sample.cache_foreign)
              Sample.request_with_cache Sample.cache_foreign C) as [A B].
  split.
  - apply A. discriminate.
  - apply B. discriminate.
Defined.

Lemma session_created_only_when_missing_witness :
  In (CallCreateSession Sample.session_row)
     (snd (POST Sample.deployment Sample.request)) /\
  clickhouse_enabled Sample.deployment = false /\
  fetchSession Sample.deployment Sample.website_id Sample.session_id
    = Resolves None.
Proof.
  assert (H : In (CallCreateSession Sample.session_row)
                 (snd (POST Sample.deployment Sample.request))).
  { vm_compute. do 5 right. left. reflexivity. }
  split; [exact H|].
  destruct (session_created_only_when_missing Sample.deployment
              Sample.request Sample.session_row H) as (K & F & _).
  split; [exact K | exact F].
Defined.

Lemma never_both_records_witness :
  CollectionType.event (COLLECTION_TYPE Sample.deployment)
    <> CollectionType.identify (COLLECTION_TYPE Sample.deployment) /\
  (forall e d,
     In (CallSaveEvent e) (snd (POST Sample.deployment Sample.request)) ->
     In (CallSaveSessionData d) (snd (POST Sample.deployment Sample.request)) ->
     False).
Proof.
  assert (D : CollectionType.event (COLLECTION_TYPE Sample.deployment)
              <> CollectionType.identify (COLLECTION_TYPE Sample.deployment))
    by discriminate.
  split; [exact D|].
  exact (never_both_records Sample.deployment Sample.request D).
Defined.

Lemma token_only_after_persistence_witness :
  In (CallCreateToken Sample.first_claims (js "app-secret"))
     (snd (POST Sample.deployment Sample.request)) /\
  exists body,
    parseRequest Sample.deployment Sample.request
      = Resolves (ParsedBody body) /\
    (Body.type body = CollectionType.event (COLLECTION_TYPE Sample.deployment)
     -> exists e,
          In (CallSaveEvent e) (snd (POST Sample.deployment Sample.request))
          /\ saveEvent Sample.deployment e = Resolves tt) /\
    (Body.type body
       = CollectionType.identify (COLLECTION_TYPE Sample.deployment)
     -> exists d,
          In (CallSaveSessionData d)
             (snd (POST Sample.deployment Sample.request))
          /\ saveSessionData Sample.deployment d = Resolves tt).
Proof.
  assert (H : In (CallCreateToken Sample.first_claims (js "app-secret"))
                 (snd (POST Sample.deployment Sample.request))).
  { vm_compute. do 8 right. left. reflexivity. }
  split; [exact H|].
  exact (token_only_after_persistence Sample.deployment Sample.request
           Sample.first_claims (js "app-secret") H).
Defined.

(** The event store is down: the rejection escapes after the clock
    and the failed [saveEvent]; no token is created. *)
Lemma event_store_down_example :
  fst (POST Sample.deployment_event_store_down Sample.request)
    = Threw {| Error.message := js "Can't reach database server" |} /\
  List.map rank (snd (POST Sample.deployment_event_store_down Sample.request))
    = [0; 2; 3; 4; 5; 6; 7; 8]%nat.
Proof. split; vm_compute; reflexivity. Qed.

(* ================================================================== *)
(** * Further properties: the visit of the token *)
(* ================================================================== *)

Section TokenVisit.

Variable w : World.

(** X13: the token a run issues always carries a visit that is inside
    its window at the time of the request (its issue time is at most
    1800 seconds before now), and the event row saved in the run
    carries the visit id of the token. *)
Theorem token_visit_is_active (request : Request.t) (claims : Cache.t)
    (key : JS.str) :
  In (CallCreateToken claims key) (snd (POST w request)) ->
  getTime w / 1000 - Cache.iat claims <= 1800 /\
  (forall e, In (CallSaveEvent e) (snd (POST w request)) ->
             Event.visitId e = Cache.visitId claims /\
             Event.sessionId e = Cache.sessionId claims).
Proof.
  intro H. split.
  - destruct (token_carries_visit_info _ _ _ _ H) as (cache & _ & E).
    pose proof (visit_info_active w cache (Cache.sessionId claims)
                  (getTime w / 1000)) as A.
    rewrite <- E in A. exact A.
  - intros e He.
    destruct (in_POST_after_check _ _ _ H
                (or_intror (ex_intro _ claims (ex_intro _ key eq_refl))))
      as (body & cache & info & _ & _ & P & G & S).
    destruct (in_POST_after_check _ _ _ He (or_introl eq_refl))
      as (body' & cache' & info' & _ & _ & P' & G' & S').
    rewrite P in P'. injection P' as <- <-.
    rewrite G in G'. injection G' as <-.
    apply in_session_and_collect in S. cbv zeta in S.
    apply in_session_and_collect in S'. cbv zeta in S'.
    destruct S as [S|[_ S]];
      [apply in_find_session in S; destruct S; discriminate|].
    destruct S' as [S'|[_ S']];
      [apply in_find_session in S'; destruct S'; discriminate|].
    apply in_visit_and_collect in S. cbv zeta in S.
    apply in_visit_and_collect in S'. cbv zeta in S'.
    destruct S as [S|[(n & S)|[(d & _ & S)|S]]]; try discriminate.
    destruct S' as [S'|[(n & S')|[(d & _ & S')|S']]]; try discriminate.
    injection S as -> _. injection S' as ->. split; reflexivity.
Qed.

Lemma cache_check_without_cache request :
  JS.truthy (Request.x_umami_cache request) = false \/
  (exists h, Request.x_umami_cache request = Some h /\
             parseToken w h (secret w) = Resolves None) ->
  forall cache, fst (cache_check w request) = Next cache -> cache = None.
Proof.
  unfold cache_check. intros H cache.
  destruct (Request.x_umami_cache request) as [[|x h]|]; simpl;
    try congruence.
  destruct H as [H|(h' & E & N)]; [discriminate|].
  injection E as <-. rewrite N. simpl. congruence.
Qed.

(** X14: without a usable token (the header is missing or empty, or
    the token decodes to nothing) the visit of the issued token is a
    new one: its id is [uuid(sessionId, visitSalt())] and its issue
    time is the time of the request in seconds. *)
Theorem fresh_visit_without_cache (request : Request.t) (claims : Cache.t)
    (key : JS.str) :
  JS.truthy (Request.x_umami_cache request) = false \/
  (exists h, Request.x_umami_cache request = Some h /\
             parseToken w h (secret w) = Resolves None) ->
  In (CallCreateToken claims key) (snd (POST w request)) ->
  Cache.visitId claims
    = uuid w [Some (Cache.sessionId claims); Some (visitSalt w)] /\
  Cache.iat claims = getTime w / 1000.
Proof.
  intros N H.
  destruct (token_carries_visit_info _ _ _ _ H) as (cache & C & E).
  rewrite (cache_check_without_cache _ N _ C) in E.
  rewrite visit_info_no_cache in E. injection E as -> ->.
  split; reflexivity.
Qed.

End TokenVisit.

Lemma token_visit_is_active_witness :
  In (CallCreateToken
        {| Cache.websiteId := Sample.website_id;
           Cache.sessionId := Sample.session_id;
           Cache.visitId := Sample.visit_1;
           Cache.iat := 1793613540 |}
        (js "app-secret"))
     (snd (POST (Sample.deployment_returning Sample.cache_foreign)
                Sample.request_with_cache)) /\
  getTime (Sample.deployment_returning Sample.cache_foreign) / 1000
    - 1793613540 <= 1800.
Proof.
  assert (H : In (CallCreateToken
                    {| Cache.websiteId := Sample.website_id;
                       Cache.sessionId := Sample.session_id;
                       Cache.visitId := Sample.visit_1;
                       Cache.iat := 1793613540 |}
                    (js "app-secret"))
                 (snd (POST (Sample.deployment_returning Sample.cache_foreign)
                            Sample.request_with_cache))).
  { vm_compute. do 6 right. left. reflexivity. }
  split; [exact H|].
  exact (proj1 (token_visit_is_active
                  (Sample.deployment_returning Sample.cache_foreign)
                  Sample.request_with_cache _ _ H)).
Defined.

Lemma fresh_visit_without_cache_witness :
  (JS.truthy (Request.x_umami_cache Sample.request) = false \/
   (exists h, Request.x_umami_cache Sample.request = Some h /\
              parseToken Sample.deployment h (secret Sample.deployment)
                = Resolves None)) /\
  In (CallCreateToken Sample.first_claims (js "app-secret"))
     (snd (POST Sample.deployment Sample.request)) /\
  Cache.visitId Sample.first_claims
    = uuid Sample.deployment
        [Some (Cache.sessionId Sample.first_claims);
         Some (visitSalt Sample.deployment)] /\
  Cache.iat Sample.first_claims = getTime Sample.deployment / 1000.
Proof.
  assert (N : JS.truthy (Request.x_umami_cache Sample.request) = false \/
              (exists h, Request.x_umami_cache Sample.request = Some h /\
                 parseToken Sample.deployment h (secret Sample.deployment)
                   = Resolves None)) by (left; reflexivity).
  assert (H : In (CallCreateToken Sample.first_claims (js "app-secret"))
                 (snd (POST Sample.deployment Sample.request))).
  { vm_compute. do 8 right. left. reflexivity. }
  split; [exact N|]. split; [exact H|].
  exact (fresh_visit_without_cache Sample.deployment Sample.request
           Sample.first_claims (js "app-secret") N H).
Defined.

(* ================================================================== *)
(** * Further properties: the absolute-URL pattern *)
(* ================================================================== *)

Module RegexFacts.
Import JS.

Lemma matches_nil_nullable r s : matches r s -> s = [] -> nullable r = true.
Proof.
  induction 1 as [|p c Hp|r1 r2 s1 s2 _ IH1 _ IH2|r1 r2 s _ IH|r1 r2 s _ IH
                  |r|r s1 s2 _ _ _ _]; intro E; simpl; auto.
  - discriminate.
  - apply app_eq_nil in E. destruct E as [-> ->].
    rewrite IH1, IH2; reflexivity.
  - rewrite IH; auto.
  - rewrite IH; auto. apply orb_true_r.
Qed.

Lemma nullable_matches r : nullable r = true <-> matches r [].
Proof.
  split.
  - induction r as [| |p|r1 IH1 r2 IH2|r1 IH1 r2 IH2|r IH]; simpl; intro H;
      try discriminate.
    + constructor.
    + apply andb_true_iff in H. destruct H as [H1 H2].
      change (@nil char) with (@nil char ++ []). constructor; auto.
    + apply orb_true_iff in H. destruct H as [H|H];
        [apply MAltL | apply MAltR]; auto.
    + constructor.
  - intro H. exact (matches_nil_nullable _ _ H eq_refl).
Qed.

Lemma matches_star_cons r0 s0 :
  matches r0 s0 ->
  forall r c s, r0 = Star r -> s0 = c :: s ->
  exists s1 s2, s = s1 ++ s2 /\ matches r (c :: s1) /\ matches (Star r) s2.
Proof.
  induction 1 as [|p0 c0 P0| | | | |r' s1 s2 H1 _ H2 IH2];
    intros q x t Er Es; try discriminate.
  injection Er as ->.
  destruct s1 as [|y s1].
  - simpl in Es. exact (IH2 q x t eq_refl Es).
  - simpl in Es. injection Es as -> <-. exists s1, s2. auto.
Qed.

Lemma matches_empty_inv s : matches Empty s -> False.
Proof. intro H. inversion H. Qed.

Lemma matches_eps_inv s : matches Eps s -> s = [].
Proof. intro H. inversion H. reflexivity. Qed.

Lemma matches_class_inv p s :
  matches (Class p) s -> exists c, s = [c] /\ p c = true.
Proof. intro H. inversion H; subst. eauto. Qed.

Lemma matches_seq_inv r1 r2 s :
  matches (Seq r1 r2) s ->
  exists s1 s2, s = s1 ++ s2 /\ matches r1 s1 /\ matches r2 s2.
Proof. intro H. inversion H; subst. eauto. Qed.

Lemma matches_alt_inv r1 r2 s :
  matches (Alt r1 r2) s -> matches r1 s \/ matches r2 s.
Proof. intro H. inversion H; subst; auto. Qed.

(** The derivative reads one character. *)
Lemma deriv_matches c r : forall s,
  matches (deriv c r) s <-> matches r (c :: s).
Proof.
  induction r as [| |p|r1 IH1 r2 IH2|r1 IH1 r2 IH2|r IH]; intro s; simpl.
  - split; intro H; destruct (matches_empty_inv _ H).
  - split; intro H.
    + destruct (matches_empty_inv _ H).
    + apply matches_eps_inv in H. discriminate.
  - destruct (p c) eqn:P; split; intro H.
    + apply matches_eps_inv in H. subst s. constructor. exact P.
    + apply matches_class_inv in H. destruct H as (x & E & _).
      injection E as _ ->. constructor.
    + destruct (matches_empty_inv _ H).
    + apply matches_class_inv in H. destruct H as (x & E & Px).
      injection E as <- _. congruence.
  - assert (L : forall s1 s2,
              matches (deriv c r1) s1 -> matches r2 s2 ->
              matches (Seq r1 r2) (c :: s1 ++ s2)).
    { intros s1 s2 H1 H2. apply IH1 in H1.
      change (c :: s1 ++ s2) with ((c :: s1) ++ s2). constructor; auto. }
    assert (R : matches (Seq r1 r2) (c :: s) ->
              (exists t s2, s = t ++ s2 /\ matches (deriv c r1) t /\
                            matches r2 s2) \/
              (nullable r1 = true /\ matches (deriv c r2) s)).
    { intro H. apply matches_seq_inv in H.
      destruct H as (s1 & s2 & E & H1 & H2). destruct s1 as [|x t].
      - right. simpl in E. subst s2.
        split; [apply nullable_matches; exact H1 | apply IH2; exact H2].
      - left. simpl in E. injection E as <- ->. exists t, s2.
        split; [reflexivity|]. split; [apply IH1; exact H1 | exact H2]. }
    destruct (nullable r1) eqn:N; split; intro H.
    + apply matches_alt_inv in H. destruct H as [H|H].
      * apply matches_seq_inv in H. destruct H as (s1 & s2 & -> & H1 & H2).
        apply L; assumption.
      * apply IH2 in H. apply nullable_matches in N.
        change (c :: s) with ([] ++ c :: s). constructor; assumption.
    + destruct (R H) as [(t & s2 & -> & D & H2)|(_ & D)].
      * apply MAltL. constructor; assumption.
      * apply MAltR. exact D.
    + apply matches_seq_inv in H. destruct H as (s1 & s2 & -> & H1 & H2).
      apply L; assumption.
    + destruct (R H) as [(t & s2 & -> & D & H2)|(N' & _)].
      * constructor; assumption.
      * congruence.
  - split; intro H; apply matches_alt_inv in H; destruct H as [H|H].
    + apply MAltL. apply IH1. assumption.
    + apply MAltR. apply IH2. assumption.
    + apply MAltL. apply IH1. assumption.
    + apply MAltR. apply IH2. assumption.
  - split; intro H.
    + apply matches_seq_inv in H. destruct H as (s1 & s2 & -> & H1 & H2).
      apply IH in H1.
      change (c :: s1 ++ s2) with ((c :: s1) ++ s2). constructor; auto.
    + destruct (matches_star_cons _ _ H r c s eq_refl eq_refl)
        as (s1 & s2 & -> & H1 & H2).
      constructor; [apply IH; exact H1 | exact H2].
Qed.

(** The test succeeds exactly when a prefix of the input is a match. *)
Lemma test_anchored_spec s : forall r,
  test_anchored r s = true <-> exists p q, s = p ++ q /\ matches r p.
Proof.
  induction s as [|c s IH]; intro r; simpl.
  - rewrite orb_false_r. rewrite nullable_matches. split.
    + intro H. exists [], []. auto.
    + intros (p & q & E & H). symmetry in E. apply app_eq_nil in E.
      destruct E as [-> _]. exact H.
  - rewrite orb_true_iff, nullable_matches, IH. split.
    + intros [H|(p & q & -> & H)].
      * exists [], (c :: s). auto.
      * exists (c :: p), q. split; [reflexivity|].
        apply deriv_matches. exact H.
    + intros (p & q & E & H). destruct p as [|x p].
      * left. exact H.
      * right. simpl in E. injection E as <- ->. exists p, q.
        split; [reflexivity|]. apply deriv_matches. exact H.
Qed.

Lemma matches_star_class_forall p r s :
  matches r s -> r = Star (Class p) -> forallb p s = true.
Proof.
  induction 1 as [| | | | | |r' s1 s2 H1 _ _ IH2]; intro E;
    try discriminate.
  - reflexivity.
  - injection E as ->. apply matches_class_inv in H1.
    destruct H1 as (x & -> & Px). simpl. rewrite Px, (IH2 eq_refl).
    reflexivity.
Qed.

Lemma matches_star_class p s :
  matches (Star (Class p)) s <-> forallb p s = true.
Proof.
  split.
  - intro H. exact (matches_star_class_forall p _ _ H eq_refl).
  - induction s as [|c s IH]; simpl; intro H; [constructor|].
    apply andb_true_iff in H. destruct H as [Hc Hs].
    change (c :: s) with ([c] ++ s). constructor; [constructor|]; auto.
Qed.

Lemma matches_plus_class p s :
  matches (Plus (Class p)) s <-> s <> [] /\ forallb p s = true.
Proof.
  unfold Plus. split.
  - intro H. apply matches_seq_inv in H.
    destruct H as (s1 & s2 & -> & H1 & H2).
    apply matches_class_inv in H1. destruct H1 as (x & -> & Px).
    apply matches_star_class in H2. simpl.
    split; [discriminate|]. rewrite Px, H2. reflexivity.
  - intros [N F]. destruct s as [|c s]; [congruence|].
    simpl in F. apply andb_true_iff in F. destruct F as [Fc Fs].
    change (c :: s) with ([c] ++ s).
    constructor; [constructor; exact Fc | apply matches_star_class; exact Fs].
Qed.

Lemma matches_lit l : forall s, matches (Lit l) s <-> s = l.
Proof.
  induction l as [|c l IH]; intro s; simpl.
  - split; intro H; [apply matches_eps_inv; exact H | subst; constructor].
  - split; intro H.
    + apply matches_seq_inv in H. destruct H as (s1 & s2 & -> & H1 & H2).
      apply matches_class_inv in H1. destruct H1 as (x & -> & Q).
      apply IH in H2. subst s2. simpl. f_equal. symmetry.
      apply JSFacts.char_eqb_eq. exact Q.
    + subst s. change (c :: l) with ([c] ++ l).
      constructor; [constructor; apply JSFacts.char_eqb_refl|].
      apply IH. reflexivity.
Qed.

End RegexFacts.

(** The strings the absolute-URL pattern accepts. *)
Lemma absolute_url_re_accepts (s : JS.str) :
  JS.test_anchored absolute_url_re s = true <-> has_absolute_shape s.
Proof.
  unfold has_absolute_shape.
  rewrite RegexFacts.test_anchored_spec. unfold absolute_url_re. split.
  - intros (p & q & -> & H).
    apply RegexFacts.matches_seq_inv in H.
    destruct H as (p1 & p2 & -> & H1 & H2).
    apply RegexFacts.matches_seq_inv in H2.
    destruct H2 as (l & p3 & -> & H3 & H4).
    apply RegexFacts.matches_plus_class in H1. destruct H1 as [N F].
    apply RegexFacts.matches_lit in H3. subst l.
    apply RegexFacts.matches_plus_class in H4. destruct H4 as [N' F'].
    destruct p3 as [|c t]; [congruence|].
    simpl in F'. apply andb_true_iff in F'. destruct F' as [Fc _].
    exists p1, c, (t ++ q). split; [exact N|]. split; [exact F|].
    split; [exact Fc|]. rewrite <- !app_assoc. reflexivity.
  - intros (scheme & c & rest & N & F & Fc & ->).
    exists (scheme ++ js "://" ++ [c]), rest. split.
    + rewrite <- !app_assoc. reflexivity.
    + constructor; [apply RegexFacts.matches_plus_class; auto|].
      constructor; [apply RegexFacts.matches_lit; reflexivity|].
      apply RegexFacts.matches_plus_class. split; [discriminate|].
      simpl. rewrite Fc. reflexivity.
Qed.

(** X15: the pattern [/^[\w-]+:\/\/\w+/] accepts a string exactly
    when it starts with one or more word characters or hyphens, then
    [://], then a word character; whatever follows does not matter. *)
Theorem absolute_shape (s : JS.str) :
  JS.test_anchored absolute_url_re s = true <->
  exists scheme c rest,
    scheme <> [] /\
    forallb is_word_or_dash scheme = true /\
    JS.is_word c = true /\
    s = scheme ++ js "://" ++ c :: rest.
Proof. exact (absolute_url_re_accepts s). Qed.

Section ConstructorUse.

Variable w : World.

(** X16: the URL constructor has a part in the normalisation exactly
    when the decoded referrer path has the absolute shape.  With the
    shape the outcome is the constructor's: its TypeError escapes, or
    the referrer path, query and domain are taken from the URL it
    returns.  Without the shape the result is the same whatever the
    constructor would do, the referrer path and query are the pieces
    of the split, and the referrer domain is the empty string. *)
Theorem constructor_consulted_by_shape (url referrer : option JS.str) :
  (has_absolute_shape (JS.to_string (fst (decode_and_split w referrer))) ->
   match new_URL w (JS.to_string referrer) with
   | Some refUrl =>
       exists n,
         normalize w url referrer = (Next n, []) /\
         referrerPath n = Some (URL.pathname refUrl) /\
         referrerQuery n = Some (List.tl (URL.search refUrl)) /\
         referrerDomain n = strip_www (URL.hostname refUrl)
   | None => normalize w url referrer = (Throw invalid_url, [])
   end) /\
  (~ has_absolute_shape (JS.to_string (fst (decode_and_split w referrer))) ->
   (forall f,
      normalize (with_new_URL w f) url referrer = normalize w url referrer) /\
   exists n,
     normalize w url referrer = (Next n, []) /\
     referrerPath n = fst (decode_and_split w referrer) /\
     referrerQuery n = snd (decode_and_split w referrer) /\
     referrerDomain n = []).
Proof.
  split.
  - intro S. apply absolute_url_re_accepts in S.
    destruct (new_URL w (JS.to_string referrer)) as [refUrl|] eqn:U.
    + eexists. split; [apply normalize_absolute; eassumption|].
      simpl. auto.
    + apply normalize_throws; assumption.
  - intro N.
    assert (T : JS.test_anchored absolute_url_re
                  (JS.to_string (fst (decode_and_split w referrer)))
                = false).
    { destruct (JS.test_anchored absolute_url_re
                  (JS.to_string (fst (decode_and_split w referrer))))
        eqn:T; [|reflexivity].
      exfalso. apply N. apply absolute_url_re_accepts. exact T. }
    split.
    + intro f.
      rewrite (normalize_relative w url referrer T).
      exact (normalize_relative (with_new_URL w f) url referrer T).
    + eexists. split; [apply normalize_relative; exact T|].
      simpl. auto.
Qed.

End ConstructorUse.

(** The two cases on sample referrers: [1://a] has the shape and the
    constructor throws; [/local] has not, and a constructor that
    accepts everything changes nothing. *)
Lemma constructor_consulted_examples :
  normalize Sample.deployment (Some (js "/")) (Some (js "1://a"))
    = (Throw invalid_url, []) /\
  normalize (with_new_URL Sample.deployment
               (fun s => Some {| URL.pathname := s; URL.search := [];
                                 URL.hostname := s |}))
            (Some (js "/")) (Some (js "1://a"))
    = (Next {| urlPath := js "/"; urlQuery := None;
               referrerPath := Some (js "1://a");
               referrerQuery := Some [];
               referrerDomain := js "1://a" |}, []) /\
  normalize (with_new_URL Sample.deployment
               (fun s => Some {| URL.pathname := s; URL.search := [];
                                 URL.hostname := s |}))
            (Some (js "/")) (Some (js "/local"))
    = normalize Sample.deployment (Some (js "/")) (Some (js "/local")).
Proof. repeat split; vm_compute; reflexivity. Qed.
